(** * CircumSolarSystem: the per-frame simulation core

    A shallow embedding of the frame loop of [index.js], of the exhaust
    particle system of [src/getShipExhaust.js] and of the sun eruption
    particle system of [src/createSolarSystem.js], with the properties of
    the specification stated over it.

    Number model.  A JavaScript number is read as a real number: the
    arithmetic of the source ([+], [*], [/], [Math.min], [Math.max],
    [Math.ceil], [Math.sin], [Math.cos], [Math.acos], [Math.sqrt]) is the
    exact arithmetic of [R].  Rounding to binary64 (and to binary32 when a
    value is stored in a [Float32Array]), [NaN] and the infinities are not
    modelled.

    Randomness.  [Math.random()] is an explicit sequence [random : nat -> R]
    of the values it returns, in call order; every function that draws
    takes the index of the next draw and returns the index after its last
    draw.

    THREE.js.  [Vector3] and the part of [Matrix4] the loop uses are given
    by their component formulas.  Quaternions are kept as the library calls
    that build them (type [Quaternion]): the loop only chooses which calls
    to make and with which arguments. *)

From Stdlib Require Import Reals Lra Lia List Bool String ZArith.
Import ListNotations.

Open Scope R_scope.

(** ** JavaScript numbers *)

(** [Math.ceil]. *)
Definition Math_ceil (x : R) : R := IZR (Zceil x).

(** [Math.min] and [Math.max] on two numbers. *)
Definition Math_min (x y : R) : R := Rmin x y.
Definition Math_max (x y : R) : R := Rmax x y.

(** The comparisons [<], [<=], [>=], [>] as booleans. *)
Definition Rltb (x y : R) : bool := if Rlt_dec x y then true else false.
Definition Rleb (x y : R) : bool := if Rle_dec x y then true else false.
Definition Rgeb (x y : R) : bool := Rleb y x.
Definition Rgtb (x y : R) : bool := Rltb y x.

(** ** THREE.Vector3 *)

Record Vector3 : Type := mkVector3 { vx : R; vy : R; vz : R }.

Definition Vector3_zero : Vector3 := mkVector3 0 0 0.

(** [v.length()]. *)
Definition length (v : Vector3) : R :=
  sqrt (vx v * vx v + vy v * vy v + vz v * vz v).

(** [v.negate()]. *)
Definition negate (v : Vector3) : Vector3 :=
  mkVector3 (- vx v) (- vy v) (- vz v).

(** [v.addScaledVector(d, s)]. *)
Definition addScaledVector (v d : Vector3) (s : R) : Vector3 :=
  mkVector3 (vx v + vx d * s) (vy v + vy d * s) (vz v + vz d * s).

(** [v.crossVectors(a, b)]. *)
Definition crossVectors (a b : Vector3) : Vector3 :=
  mkVector3 (vy a * vz b - vz a * vy b)
            (vz a * vx b - vx a * vz b)
            (vx a * vy b - vy a * vx b).

(** [v.divideScalar(s)], which multiplies by [1 / s]. *)
Definition divideScalar (v : Vector3) (s : R) : Vector3 :=
  mkVector3 (vx v * (1 / s)) (vy v * (1 / s)) (vz v * (1 / s)).

(** [v.normalize()], that is [v.divideScalar(v.length() || 1)]. *)
Definition normalize (v : Vector3) : Vector3 :=
  divideScalar v (if Req_dec_T (length v) 0 then 1 else length v).

(** [v.lerp(w, alpha)]. *)
Definition lerp (v w : Vector3) (alpha : R) : Vector3 :=
  mkVector3 (vx v + (vx w - vx v) * alpha)
            (vy v + (vy w - vy v) * alpha)
            (vz v + (vz w - vz v) * alpha).

(** ** Orbits of the bodies ([animate], index.js lines 401-485) *)

Module Orbit.

Inductive Body : Type :=
| Mercury | Venus | Earth | Moon | Mars
| Jupiter | Saturn | Uranus | Neptune | Pluto.

Definition AU_SCALE : R := 400.
Definition MERCURY_AU : R := 0.39.
Definition VENUS_AU : R := 0.72.
Definition EARTH_AU : R := 1.0.
Definition MARS_AU : R := 1.52.
Definition JUPITER_AU : R := 5.2.
Definition SATURN_AU : R := 9.54.
Definition URANUS_AU : R := 19.2.
Definition NEPTUNE_AU : R := 30.06.
Definition PLUTO_AU : R := 39.5.
Definition EARTH_RADIUS : R := 10.

(** The distance of a planet from the sun in astronomical units; the moon
    has none in the source, its orbit is given in earth radii. *)
Definition radiusAU (b : Body) : option R :=
  match b with
  | Mercury => Some MERCURY_AU
  | Venus => Some VENUS_AU
  | Earth => Some EARTH_AU
  | Moon => None
  | Mars => Some MARS_AU
  | Jupiter => Some JUPITER_AU
  | Saturn => Some SATURN_AU
  | Uranus => Some URANUS_AU
  | Neptune => Some NEPTUNE_AU
  | Pluto => Some PLUTO_AU
  end.

(** The factor of [Date.now()] in each [...OrbitAngle]. *)
Definition angularSpeedConst (b : Body) : R :=
  match b with
  | Mercury => 0.0002
  | Venus => 0.00015
  | Earth => 0.0001
  | Moon => 0.0005
  | Mars => 0.00008
  | Jupiter => 0.00004
  | Saturn => 0.00003
  | Uranus => 0.00002
  | Neptune => 0.000015
  | Pluto => 0.00001
  end.

(** [const xOrbitAngle = Date.now() * k], with [now] the value of
    [Date.now()]. *)
Definition orbitAngle (b : Body) (now : R) : R := now * angularSpeedConst b.

(** The value assigned to [xSystem.position.x]. *)
Definition orbitX (b : Body) (now : R) : R :=
  let a := orbitAngle b now in
  match b with
  | Mercury => cos a * AU_SCALE * MERCURY_AU * 5 / 15
  | Venus => cos a * AU_SCALE * VENUS_AU
  | Earth => cos a * AU_SCALE * EARTH_AU
  | Moon => cos a * EARTH_RADIUS * 2.5
  | Mars => cos a * AU_SCALE * MARS_AU
  | Jupiter => cos a * AU_SCALE * JUPITER_AU
  | Saturn => cos a * AU_SCALE * SATURN_AU
  | Uranus => cos a * AU_SCALE * URANUS_AU
  | Neptune => cos a * AU_SCALE * NEPTUNE_AU
  | Pluto => cos a * AU_SCALE * PLUTO_AU
  end.

(** The value assigned to [xSystem.position.z]. *)
Definition orbitZ (b : Body) (now : R) : R :=
  let a := orbitAngle b now in
  match b with
  | Mercury => sin a * AU_SCALE * MERCURY_AU * 5 / 15
  | Venus => sin a * AU_SCALE * VENUS_AU
  | Earth => sin a * AU_SCALE * EARTH_AU
  | Moon => sin a * EARTH_RADIUS * 2.5
  | Mars => sin a * AU_SCALE * MARS_AU
  | Jupiter => sin a * AU_SCALE * JUPITER_AU
  | Saturn => sin a * AU_SCALE * SATURN_AU
  | Uranus => sin a * AU_SCALE * URANUS_AU
  | Neptune => sin a * AU_SCALE * NEPTUNE_AU
  | Pluto => sin a * AU_SCALE * PLUTO_AU
  end.

(** One frame of a body's orbit: [position.x] and [position.z] are
    assigned, [position.y] is not written. *)
Definition animateOrbit (b : Body) (now : R) (position : Vector3) : Vector3 :=
  mkVector3 (orbitX b now) (vy position) (orbitZ b now).

(** The position each system is given when it is built
    ([createSolarSystem.js]: [xSystem.position.set(..., 0, 0)]), in the
    frame of its parent. *)
Definition initialPosition (b : Body) : Vector3 :=
  match b with
  | Mercury => mkVector3 (AU_SCALE * MERCURY_AU) 0 0
  | Venus => mkVector3 (AU_SCALE * VENUS_AU) 0 0
  | Earth => mkVector3 (AU_SCALE * EARTH_AU) 0 0
  | Moon => mkVector3 (EARTH_RADIUS * 2.5) 0 0
  | Mars => mkVector3 (AU_SCALE * MARS_AU) 0 0
  | Jupiter => mkVector3 (AU_SCALE * JUPITER_AU) 0 0
  | Saturn => mkVector3 (AU_SCALE * SATURN_AU) 0 0
  | Uranus => mkVector3 (AU_SCALE * URANUS_AU) 0 0
  | Neptune => mkVector3 (AU_SCALE * NEPTUNE_AU) 0 0
  | Pluto => mkVector3 (AU_SCALE * PLUTO_AU) 0 0
  end.

(** The position the specification gives for a body of AU distance [r]. *)
Definition specPosition (r auScale k t : R) : Vector3 :=
  mkVector3 (cos (t * k) * r * auScale) 0 (sin (t * k) * r * auScale).

End Orbit.

(** ** Exhaust particle system ([getShipExhaust.js]) *)

Module Exhaust.

(** [config]: [count] and the ranges [size], [lifetime], [speed] and
    [spread]; [color] only reaches the material. *)
Record Config : Type := mkConfig {
  count : nat;
  size_min : R;
  size_max : R;
  lifetime_min : R;
  lifetime_max : R;
  speed_min : R;
  speed_max : R;
  spread_x : R;
  spread_y : R;
  spread_z : R
}.

(** The defaults of [getShipExhaust]. *)
Definition defaultConfig : Config :=
  mkConfig 200 0.025 0.05 0.5 0.6 0.2 0.6 0.05 0.05 0.08.

(** The options [index.js] passes: the defaults with [count: 100]. *)
Definition indexConfig : Config :=
  mkConfig 100 0.025 0.05 0.5 0.6 0.2 0.6 0.05 0.05 0.08.

Record Color : Type := mkColor { red : R; green : R; blue : R }.

(** Slot [i] of the parallel arrays [positions], [velocities], [sizes],
    [colors], [lifetimes], [maxLifetimes] and [emitterIndices], which all
    have [config.count] slots and are read and written at [i] only while
    the loops visit [i].  [geometry.attributes.size.array] is the array
    [sizes] itself, so there is one [size] per slot. *)
Record Particle : Type := mkParticle {
  position : Vector3;
  velocity : Vector3;
  size : R;
  color : Color;
  lifetime : R;
  maxLifetime : R;
  emitterIndex : nat
}.

(** The closure state of one exhaust system. *)
Record State : Type := mkState {
  particles : list Particle;
  emitterPositions : Vector3 * Vector3;
  activeParticles : nat
}.

(** [emitterPositions[emitterIndex]], the index being 0 or 1. *)
Definition emitterPos (e : Vector3 * Vector3) (emitterIndex : nat) : Vector3 :=
  match emitterIndex with
  | O => fst e
  | S _ => snd e
  end.

(** Which branch of the loop body of [update] a slot went through:
    reset (lines 144-183), dead and left alone (the inner [if] failed), or
    moved and aged (lines 186-221).  The tag is bookkeeping of the model. *)
Inductive Branch : Type := Respawned | Waiting | Aged.

Definition Branch_eqb (a b : Branch) : bool :=
  match a, b with
  | Respawned, Respawned | Waiting, Waiting | Aged, Aged => true
  | _, _ => false
  end.

(** The size easing of lines 197-204, before the [Math.max(0, _)]. *)
Definition sizeMultiplier (lifeRatio : R) : R :=
  if Rltb lifeRatio 0.2 then lifeRatio * 5
  else 1 - ((lifeRatio - 0.2) * 1.25).

(** The colour easing of lines 211-218. *)
Definition fadeColor (lifeRatio : R) (c : Color) : Color :=
  if Rgtb lifeRatio 0.5 then
    let colorRatio := (lifeRatio - 0.5) * 2 in
    mkColor 0
            (Math_max 0 (1 - colorRatio * 0.8))
            (Math_max 0.2 (1 - colorRatio * 0.5))
  else c.

(** [particlesPerEmitter] (lines 126-128). *)
Definition particlesPerEmitter (shipVelocity : R) (isBoost : bool) : R :=
  if isBoost then Math_min 3 (Math_ceil (shipVelocity * 1))
  else Math_min 1 (Math_ceil (shipVelocity * 0.5)).

Section WithRandom.

(** The values [Math.random()] returns, in call order. *)
Variable random : nat -> R.
Variable config : Config.

(** The initialisation loop of lines 80-108, from slot [i] on, for [n]
    more slots. *)
Fixpoint initParticles (n i cursor : nat) : list Particle * nat :=
  match n with
  | O => ([], cursor)
  | S n' =>
      let velocity :=
        mkVector3 ((random cursor - 0.5) * spread_x config)
                  ((random (cursor + 1) - 0.5) * spread_y config)
                  (random (cursor + 2) * speed_max config + speed_min config) in
      let size :=
        random (cursor + 3) * (size_max config - size_min config)
        + size_min config in
      let lifetime :=
        random (cursor + 4) * (lifetime_max config - lifetime_min config)
        + lifetime_min config in
      let p := mkParticle Vector3_zero velocity size (mkColor 0 1 1) 0 lifetime
                 (if Rltb (INR i) (INR (count config) / 2) then 0%nat else 1%nat) in
      let (ps, cursor') := initParticles n' (S i) (cursor + 5) in
      (p :: ps, cursor')
  end.

(** [getShipExhaust(options)]: the state the closure starts in. *)
Definition getShipExhaust (cursor : nat) : State * nat :=
  let (ps, cursor') := initParticles (count config) 0 cursor in
  (mkState ps (Vector3_zero, Vector3_zero) 0, cursor').

(** The reset of a dead slot (lines 144-183). *)
Definition respawn (shipVelocity : R) (backwardDir rightDir upDir : option Vector3)
    (emitters : Vector3 * Vector3) (p : Particle) (cursor : nat) : Particle :=
  let speedFactor := Math_max 0.8 shipVelocity in
  let vel :=
    match backwardDir, rightDir, upDir with
    | Some b, Some r, Some u =>
        let randomRight := (random cursor - 0.5) * spread_x config in
        let randomUp := (random (cursor + 1) - 0.5) * spread_y config in
        let randomBack :=
          random (cursor + 2) * speed_max config * speedFactor + speed_min config in
        mkVector3 (vx b * randomBack + vx r * randomRight + vx u * randomUp)
                  (vy b * randomBack + vy r * randomRight + vy u * randomUp)
                  (vz b * randomBack + vz r * randomRight + vz u * randomUp)
    | _, _, _ =>
        mkVector3 ((random cursor - 0.5) * spread_x config)
                  ((random (cursor + 1) - 0.5) * spread_y config)
                  (random (cursor + 2) * speed_max config * speedFactor
                   + speed_min config)
    end in
  mkParticle (emitterPos emitters (emitterIndex p)) vel (size p) (mkColor 0 1 1) 0
    (random (cursor + 3) * (lifetime_max config - lifetime_min config)
     + lifetime_min config)
    (emitterIndex p).

(** The move of a live slot (lines 186-218). *)
Definition age (delta : R) (p : Particle) : Particle :=
  let position' := addScaledVector (position p) (velocity p) delta in
  let lifetime' := lifetime p + delta in
  let lifeRatio := lifetime' / maxLifetime p in
  mkParticle position' (velocity p)
    (size p * Math_max 0 (sizeMultiplier lifeRatio))
    (fadeColor lifeRatio (color p))
    lifetime' (maxLifetime p) (emitterIndex p).

(** One pass of the loop body of [update] (lines 136-222) over a slot, with
    the counter [activeParticles] and the next draw before and after. *)
Definition updateParticle (delta shipVelocity budget : R)
    (backwardDir rightDir upDir : option Vector3) (emitters : Vector3 * Vector3)
    (p : Particle) (activeParticles cursor : nat)
  : Branch * Particle * nat * nat :=
  if Rgeb (lifetime p) (maxLifetime p) then
    if Rltb (INR activeParticles) budget then
      (Respawned,
       respawn shipVelocity backwardDir rightDir upDir emitters p cursor,
       S activeParticles, (cursor + 4)%nat)
    else (Waiting, p, activeParticles, cursor)
  else (Aged, age delta p, activeParticles, cursor).

(** The loop of [update] over the slots in index order.  The result pairs
    every slot with the branch it went through and gives the last values
    of [activeParticles] and of the draw index. *)
Fixpoint updateLoop (delta shipVelocity budget : R)
    (backwardDir rightDir upDir : option Vector3) (emitters : Vector3 * Vector3)
    (ps : list Particle) (activeParticles cursor : nat)
  : list (Branch * Particle) * nat * nat :=
  match ps with
  | [] => ([], activeParticles, cursor)
  | p :: ps' =>
      let '(b, p', active', cursor') :=
        updateParticle delta shipVelocity budget backwardDir rightDir upDir
          emitters p activeParticles cursor in
      let '(rest, active'', cursor'') :=
        updateLoop delta shipVelocity budget backwardDir rightDir upDir
          emitters ps' active' cursor' in
      ((b, p') :: rest, active'', cursor'')
  end.

(** The run of the loop inside [update(delta, shipVelocity, isBoost,
    backwardDir, rightDir, upDir)], after the clamp of [delta]. *)
Definition updateRun (delta shipVelocity : R) (isBoost : bool)
    (backwardDir rightDir upDir : option Vector3) (s : State) (cursor : nat)
  : list (Branch * Particle) * nat * nat :=
  updateLoop (Math_min delta 0.1) shipVelocity
    (particlesPerEmitter shipVelocity isBoost)
    backwardDir rightDir upDir (emitterPositions s)
    (particles s) (activeParticles s) cursor.

(** The branches the slots went through in one call of [update]. *)
Definition updateBranches (delta shipVelocity : R) (isBoost : bool)
    (backwardDir rightDir upDir : option Vector3) (s : State) (cursor : nat)
  : list Branch :=
  map fst (fst (fst (updateRun delta shipVelocity isBoost
                       backwardDir rightDir upDir s cursor))).

(** [update]: the loop, then [activeParticles = 0] (line 226). *)
Definition update (delta shipVelocity : R) (isBoost : bool)
    (backwardDir rightDir upDir : option Vector3) (s : State) (cursor : nat)
  : State * nat :=
  let '(slots, _, cursor') :=
    updateRun delta shipVelocity isBoost backwardDir rightDir upDir s cursor in
  (mkState (map snd slots) (emitterPositions s) 0, cursor').

End WithRandom.

(** [setEmitterPositions(leftPos, rightPos)]. *)
Definition setEmitterPositions (leftPos rightPos : Vector3) (s : State) : State :=
  mkState (particles s) (leftPos, rightPos) (activeParticles s).

(** [clearAllParticles()] (lines 248-267). *)
Definition clearParticle (emitters : Vector3 * Vector3) (p : Particle) : Particle :=
  mkParticle (emitterPos emitters (emitterIndex p)) (velocity p) (size p)
    (color p) (maxLifetime p + 1) (maxLifetime p) (emitterIndex p).

Definition clearAllParticles (s : State) : State :=
  mkState (map (clearParticle (emitterPositions s)) (particles s))
    (emitterPositions s) 0.

(** The number of respawns in a list of branches. *)
Definition respawnCount (bs : list Branch) : nat :=
  List.length (filter (Branch_eqb Respawned) bs).

(** A slot is live while [lifetimes[i] < maxLifetimes[i]]. *)
Definition isLive (p : Particle) : bool :=
  negb (Rgeb (lifetime p) (maxLifetime p)).

Definition liveCount (ps : list Particle) : nat :=
  List.length (filter isLive ps).

End Exhaust.

(** ** Sun eruption particle system ([createSolarSystem.js], lines 648-783) *)

Module Eruption.

(** Slot [i] of [positions], [velocities], [sizes] and [lifeTimes]
    ([{current, max}]); [colors] is written at construction only. *)
Record Particle : Type := mkParticle {
  position : Vector3;
  velocity : Vector3;
  size : R;
  current : R;
  max : R
}.

(** [const radius = 100]. *)
Definition radius : R := 100.

(** The point of lines 748-754 for the draws [u] (first) and [v]. *)
Definition spherePoint (u v : R) : Vector3 :=
  let theta := u * PI * 2 in
  let phi := acos (2 * v - 1) in
  mkVector3 (radius * sin phi * cos theta)
            (radius * sin phi * sin theta)
            (radius * cos phi).

(** [positions[..] * 0.01] on the three components. *)
Definition radialVelocity (p : Vector3) : Vector3 :=
  mkVector3 (vx p * 0.01) (vy p * 0.01) (vz p * 0.01).

Section WithRandom.

Variable random : nat -> R.

(** The reset branch (lines 747-766): four draws. *)
Definition respawn (cursor : nat) : Particle :=
  let position' := spherePoint (random cursor) (random (cursor + 1)) in
  let max' := 1 + random (cursor + 2) * 3 in
  mkParticle position' (radialVelocity position')
    (2 + random (cursor + 3) * 3) max' max'.

(** The move branch (lines 768-775), [current'] being the life already
    decremented: one draw. *)
Definition advance (delta current' : R) (p : Particle) (cursor : nat) : Particle :=
  let lifeRatio := current' / max p in
  mkParticle
    (mkVector3 (vx (position p) + vx (velocity p) * delta * 15)
               (vy (position p) + vy (velocity p) * delta * 15)
               (vz (position p) + vz (velocity p) * delta * 15))
    (velocity p)
    ((2 + random cursor * 3) * lifeRatio)
    current' (max p).

(** The loop body of [update] (lines 743-776). *)
Definition updateParticle (delta : R) (p : Particle) (cursor : nat)
  : Particle * nat :=
  let current' := current p - delta in
  if Rleb current' 0 then (respawn cursor, (cursor + 4)%nat)
  else (advance delta current' p cursor, (cursor + 1)%nat).

(** [sunEruptionSystem.update(delta)] over the slots in index order. *)
Fixpoint update (delta : R) (ps : list Particle) (cursor : nat)
  : list Particle * nat :=
  match ps with
  | [] => ([], cursor)
  | p :: ps' =>
      let (p', cursor') := updateParticle delta p cursor in
      let (rest, cursor'') := update delta ps' cursor' in
      (p' :: rest, cursor'')
  end.

End WithRandom.

End Eruption.

(** ** Ship controls, ship frame and camera ([index.js]) *)

Module Flight.

(** The THREE.Quaternion values of the frame, as the calls that build
    them. *)
Inductive Quaternion : Type :=
| Identity
    (* new THREE.Quaternion() *)
| GetWorldQuaternion (q : Quaternion)
    (* object.getWorldQuaternion(_) of an object whose quaternion is q *)
| SetFromAxisAngle (axis : Vector3) (angle : R)
    (* new THREE.Quaternion().setFromAxisAngle(axis, angle) *)
| Premultiply (q r : Quaternion)
    (* q.premultiply(r) *)
| LookAtRotation (eye target up : Vector3)
    (* _.setFromRotationMatrix(new THREE.Matrix4().lookAt(eye, target, up)) *)
| Slerp (q qb : Quaternion) (t : R).
    (* q.slerp(qb, t) *)

(** THREE.Matrix4: the sixteen [elements], column-major. *)
Record Matrix4 : Type := mkMatrix4 { elements : list R }.

Definition e (m : Matrix4) (i : nat) : R := nth i (elements m) 0.

(** [v.applyMatrix4(m)]. *)
Definition applyMatrix4 (v : Vector3) (m : Matrix4) : Vector3 :=
  let w := 1 / (e m 3 * vx v + e m 7 * vy v + e m 11 * vz v + e m 15) in
  mkVector3 ((e m 0 * vx v + e m 4 * vy v + e m 8 * vz v + e m 12) * w)
            ((e m 1 * vx v + e m 5 * vy v + e m 9 * vz v + e m 13) * w)
            ((e m 2 * vx v + e m 6 * vy v + e m 10 * vz v + e m 14) * w).

(** [shipControls] (lines 87-98). *)
Record ShipControls : Type := mkShipControls {
  pitchUp : bool;
  pitchDown : bool;
  bankLeft : bool;
  bankRight : bool;
  boost : bool;
  stop : bool;
  baseSpeed : R;
  boostSpeed : R;
  speed : R;
  maxBankAngle : R
}.

Definition initialControls : ShipControls :=
  mkShipControls false false false false false false 0.4 1.2 0.4 (PI / 6).

(** What the key handlers reach: the controls and the exhaust system. *)
Record World : Type := mkWorld {
  shipControls : ShipControls;
  shipExhaust : Exhaust.State
}.

Definition set_pitchUp (v : bool) (c : ShipControls) : ShipControls :=
  mkShipControls v (pitchDown c) (bankLeft c) (bankRight c) (boost c) (stop c)
    (baseSpeed c) (boostSpeed c) (speed c) (maxBankAngle c).

Definition set_pitchDown (v : bool) (c : ShipControls) : ShipControls :=
  mkShipControls (pitchUp c) v (bankLeft c) (bankRight c) (boost c) (stop c)
    (baseSpeed c) (boostSpeed c) (speed c) (maxBankAngle c).

Definition set_bankLeft (v : bool) (c : ShipControls) : ShipControls :=
  mkShipControls (pitchUp c) (pitchDown c) v (bankRight c) (boost c) (stop c)
    (baseSpeed c) (boostSpeed c) (speed c) (maxBankAngle c).

Definition set_bankRight (v : bool) (c : ShipControls) : ShipControls :=
  mkShipControls (pitchUp c) (pitchDown c) (bankLeft c) v (boost c) (stop c)
    (baseSpeed c) (boostSpeed c) (speed c) (maxBankAngle c).

(** [shipControls.boost = v; shipControls.speed = s]. *)
Definition set_boost (v : bool) (s : R) (c : ShipControls) : ShipControls :=
  mkShipControls (pitchUp c) (pitchDown c) (bankLeft c) (bankRight c) v (stop c)
    (baseSpeed c) (boostSpeed c) s (maxBankAngle c).

Definition set_stop (v : bool) (c : ShipControls) : ShipControls :=
  mkShipControls (pitchUp c) (pitchDown c) (bankLeft c) (bankRight c) (boost c) v
    (baseSpeed c) (boostSpeed c) (speed c) (maxBankAngle c).

Definition onControls (f : ShipControls -> ShipControls) (w : World) : World :=
  mkWorld (f (shipControls w)) (shipExhaust w).

(** [handleKeyDown(event)], on [event.code]. *)
Definition handleKeyDown (code : string) (w : World) : World :=
  if String.eqb code "KeyW" then onControls (set_pitchUp true) w
  else if String.eqb code "KeyS" then onControls (set_pitchDown true) w
  else if String.eqb code "KeyA" then onControls (set_bankLeft true) w
  else if String.eqb code "KeyD" then onControls (set_bankRight true) w
  else if String.eqb code "ShiftLeft" || String.eqb code "ShiftRight" then
    onControls (fun c => set_boost true (boostSpeed c) c) w
  else if String.eqb code "Space" then
    mkWorld (set_stop true (shipControls w))
            (Exhaust.clearAllParticles (shipExhaust w))
  else w.

(** [handleKeyUp(event)]. *)
Definition handleKeyUp (code : string) (w : World) : World :=
  if String.eqb code "KeyW" then onControls (set_pitchUp false) w
  else if String.eqb code "KeyS" then onControls (set_pitchDown false) w
  else if String.eqb code "KeyA" then onControls (set_bankLeft false) w
  else if String.eqb code "KeyD" then onControls (set_bankRight false) w
  else if String.eqb code "ShiftLeft" || String.eqb code "ShiftRight" then
    onControls (fun c => set_boost false (baseSpeed c) c) w
  else if String.eqb code "Space" then
    mkWorld (set_stop false (shipControls w))
            (Exhaust.clearAllParticles (shipExhaust w))
  else w.

(** [gladiatorGroup]: its [position] and its [quaternion]. *)
Record Ship : Type := mkShip {
  position : Vector3;
  quaternion : Quaternion
}.

Record Camera : Type := mkCamera {
  cameraPosition : Vector3;
  cameraQuaternion : Quaternion
}.

(** [const cameraOffset = new THREE.Vector3(0, 1, 2)]. *)
Definition cameraOffset : Vector3 := mkVector3 0 1 2.

Definition worldUp : Vector3 := mkVector3 0 1 0.

(** The float effect (lines 494-497): [position.y] is assigned. *)
Definition floatEffect (now : R) (c : ShipControls) (p : Vector3) : Vector3 :=
  let floatAngle := now * 0.001 in
  let floatAmount := if pitchUp c || pitchDown c then 0 else 2 in
  mkVector3 (vx p) (sin floatAngle * floatAmount) (vz p).

(** The variables the control blocks of lines 537-587 write. *)
Record Motion : Type := mkMotion {
  shipPosition : Vector3;
  targetRotation : Quaternion;
  needRotationUpdate : bool
}.

(** Lines 537-539. *)
Definition forwardStep (c : ShipControls) (direction : Vector3) (m : Motion) : Motion :=
  if negb (stop c) then
    mkMotion (addScaledVector (shipPosition m) direction (speed c))
      (targetRotation m) (needRotationUpdate m)
  else m.

(** Lines 542-547. *)
Definition pitchUpStep (c : ShipControls) (rightDirection : Vector3) (m : Motion) : Motion :=
  if pitchUp c && negb (stop c) then
    mkMotion (shipPosition m)
      (Premultiply (targetRotation m) (SetFromAxisAngle rightDirection 0.02))
      true
  else m.

(** Lines 548-553. *)
Definition pitchDownStep (c : ShipControls) (rightDirection : Vector3) (m : Motion) : Motion :=
  if pitchDown c && negb (stop c) then
    mkMotion (shipPosition m)
      (Premultiply (targetRotation m) (SetFromAxisAngle rightDirection (-0.02)))
      true
  else m.

(** Lines 556-571. *)
Definition bankLeftStep (c : ShipControls) (direction rightDirection : Vector3)
    (m : Motion) : Motion :=
  if bankLeft c && negb (stop c) then
    let bankAngle := Math_min 0.05 (maxBankAngle c) in
    mkMotion (addScaledVector (shipPosition m) rightDirection (speed c * 0.05))
      (Premultiply
         (Premultiply (targetRotation m) (SetFromAxisAngle direction (- bankAngle)))
         (SetFromAxisAngle worldUp 0.2))
      true
  else m.

(** Lines 572-587. *)
Definition bankRightStep (c : ShipControls) (direction rightDirection : Vector3)
    (m : Motion) : Motion :=
  if bankRight c && negb (stop c) then
    let bankAngle := Math_min 0.05 (maxBankAngle c) in
    mkMotion (addScaledVector (shipPosition m) rightDirection (speed c * -0.05))
      (Premultiply
         (Premultiply (targetRotation m) (SetFromAxisAngle direction bankAngle))
         (SetFromAxisAngle worldUp (-0.2)))
      true
  else m.

(** The control blocks in source order, from the position the float effect
    left and [targetRotation] a copy of the world quaternion. *)
Definition controlSteps (c : ShipControls) (direction : Vector3) (q : Quaternion)
    (p : Vector3) : Motion :=
  let rightDirection := normalize (crossVectors direction worldUp) in
  bankRightStep c direction rightDirection
    (bankLeftStep c direction rightDirection
       (pitchDownStep c rightDirection
          (pitchUpStep c rightDirection
             (forwardStep c direction
                (mkMotion p (GetWorldQuaternion q) false))))).

(** The rotation smoothing of lines 590-624: the quaternion of the ship
    after the frame. *)
Definition smoothRotation (direction : Vector3) (q : Quaternion) (m : Motion)
  : Quaternion :=
  if needRotationUpdate m then Slerp q (targetRotation m) 0.1
  else
    let levelRotation := LookAtRotation Vector3_zero direction worldUp in
    Slerp q levelRotation 0.02.

(** The camera follow of lines 627-640, [matrixWorld] being
    [gladiatorGroup.matrixWorld] as line 628 reads it and [shipPosition]
    being [gladiatorGroup.position]. *)
Definition cameraFollow (boosting : bool) (matrixWorld : Matrix4)
    (shipPosition : Vector3) (cam : Camera) : Camera :=
  let targetCameraPosition := applyMatrix4 cameraOffset matrixWorld in
  let position' :=
    if boosting then lerp (cameraPosition cam) targetCameraPosition 0.05
    else targetCameraPosition in
  mkCamera position' (LookAtRotation position' shipPosition worldUp).

(** The block [if (gladiatorGroup) { ... }] of [animate] (lines 492-641)
    without the spotlight.  [now] is [Date.now()], [worldDirection] the
    vector [gladiatorGroup.getWorldDirection(_)] returns in this frame
    (the orientation is not written between its two reads), [matrixWorld]
    the matrix line 628 reads. *)
Definition animateShip (now : R) (c : ShipControls) (worldDirection : Vector3)
    (matrixWorld : Matrix4) (ship : Ship) (cam : Camera) : Ship * Camera :=
  let direction := negate worldDirection in
  let m := controlSteps c direction (quaternion ship)
             (floatEffect now c (position ship)) in
  let ship' := mkShip (shipPosition m) (smoothRotation direction (quaternion ship) m) in
  (ship', cameraFollow (boost c) matrixWorld (position ship') cam).

(** At least one of the four rotation flags is set. *)
Definition rotationInput (c : ShipControls) : bool :=
  pitchUp c || pitchDown c || bankLeft c || bankRight c.

End Flight.

(** ** Sample inputs *)

Module Sample.

(** A sequence of draws that are all 1/2. *)
Definition halves : nat -> R := fun _ => 1 / 2.

(** [getShipExhaust({ count: 2 })]: one slot per emitter. *)
Definition twoSlots : Exhaust.Config :=
  Exhaust.mkConfig 2 0.025 0.05 0.5 0.6 0.2 0.6 0.05 0.05 0.08.

(** The exhaust system of two slots, as built. *)
Definition freshExhaust : Exhaust.State :=
  fst (Exhaust.getShipExhaust halves twoSlots 0).

(** The same after [clearAllParticles()]. *)
Definition clearedExhaust : Exhaust.State :=
  Exhaust.clearAllParticles freshExhaust.

(** One eruption slot: on the sphere at (100, 0, 0), velocity 0.01 times the
    position, one of its two seconds left. *)
Definition eruptionSlot : Eruption.Particle :=
  Eruption.mkParticle (mkVector3 100 0 0) (mkVector3 1 0 0) 3.5 1 2.

(** The ship as the model loader places it: 20 above and 60 behind the
    built position of the earth system. *)
Definition shipAtStart : Flight.Ship :=
  Flight.mkShip (mkVector3 400 20 60) Flight.Identity.

(** The camera as built: [camera.position.z = 500]. *)
Definition cameraAtStart : Flight.Camera :=
  Flight.mkCamera (mkVector3 0 0 500) Flight.Identity.

(** The controls after the space bar went down on the page as loaded. *)
Definition stoppedControls : Flight.ShipControls :=
  Flight.shipControls
    (Flight.handleKeyDown "Space"
       (Flight.mkWorld Flight.initialControls clearedExhaust)).

(** The controls after W and then the space bar went down. *)
Definition pitchingStoppedControls : Flight.ShipControls :=
  Flight.shipControls
    (Flight.handleKeyDown "Space"
       (Flight.handleKeyDown "KeyW"
          (Flight.mkWorld Flight.initialControls clearedExhaust))).

(** The vector [getWorldDirection] gives for an unrotated object. *)
Definition forwardZ : Vector3 := mkVector3 0 0 1.

(** A world matrix that translates by (400, 20, 60). *)
Definition translation : Flight.Matrix4 :=
  Flight.mkMatrix4 [1; 0; 0; 0; 0; 1; 0; 0; 0; 0; 1; 0; 400; 20; 60; 1].

End Sample.

(** ** Further THREE.Vector3 methods *)

(** [v.dot(w)] and [v.lengthSq()]. *)
Definition dot (v w : Vector3) : R := vx v * vx w + vy v * vy w + vz v * vz w.
Definition lengthSq (v : Vector3) : R := vx v * vx v + vy v * vy v + vz v * vz v.

(** [MathUtils.clamp(value, min, max)]. *)
Definition clamp (value lo hi : R) : R := Math_max lo (Math_min hi value).

(** [v.angleTo(w)]: a quarter turn when the denominator is 0. *)
Definition angleTo (v w : Vector3) : R :=
  let denominator := sqrt (lengthSq v * lengthSq w) in
  if Req_dec_T denominator 0 then PI / 2
  else acos (clamp (dot v w / denominator) (-1) 1).

(** ** Warm start of the exhaust system ([init], getShipExhaust.js 270-330) *)

Module WarmStart.
Import Exhaust.

Section WithRandom.

Variable random : nat -> R.
Variable config : Config.

(** The loop body of [init] on one slot: seven draws. *)
Definition initParticle (backwardDir rightDir upDir : option Vector3)
    (emitters : Vector3 * Vector3) (p : Particle) (cursor : nat) : Particle :=
  let emitterPos := emitterPos emitters (emitterIndex p) in
  let '(position', velocity') :=
    match backwardDir, rightDir, upDir with
    | Some b, Some r, Some u =>
        let randomRight := (random cursor - 0.5) * 0.1 in
        let randomUp := (random (cursor + 1) - 0.5) * 0.1 in
        let randomBack := (random (cursor + 2) - 0.5) * 0.8 - 0.1 in
        let velRandomRight := (random (cursor + 3) - 0.5) * spread_x config * 1.5 in
        let velRandomUp := (random (cursor + 4) - 0.5) * spread_y config * 1.5 in
        let velRandomBack :=
          random (cursor + 5) * speed_max config * 2 + speed_min config in
        (mkVector3
           (vx emitterPos
            + (vx r * randomRight + vx u * randomUp + vx b * randomBack))
           (vy emitterPos
            + (vy r * randomRight + vy u * randomUp + vy b * randomBack))
           (vz emitterPos
            + (vz r * randomRight + vz u * randomUp + vz b * randomBack)),
         mkVector3
           (vx b * velRandomBack + vx r * velRandomRight + vx u * velRandomUp)
           (vy b * velRandomBack + vy r * velRandomRight + vy u * velRandomUp)
           (vz b * velRandomBack + vz r * velRandomRight + vz u * velRandomUp))
    | _, _, _ =>
        (mkVector3 (vx emitterPos + (random cursor - 0.5) * 0.1)
           (vy emitterPos + (random (cursor + 1) - 0.5) * 0.1)
           (vz emitterPos + (random (cursor + 2) - 0.5) * 0.8 - 0.1),
         mkVector3 ((random (cursor + 3) - 0.5) * spread_x config * 1.5)
           ((random (cursor + 4) - 0.5) * spread_y config * 1.5)
           (random (cursor + 5) * speed_max config * 2 + speed_min config))
    end in
  mkParticle position' velocity' (size p) (mkColor 0 1 1)
    (random (cursor + 6) * maxLifetime p * 0.7)
    (maxLifetime p) (emitterIndex p).

(** The loop of [init] over the first [n] slots of [ps]. *)
Fixpoint initLoop (backwardDir rightDir upDir : option Vector3)
    (emitters : Vector3 * Vector3) (n : nat) (ps : list Particle) (cursor : nat)
  : list Particle * nat :=
  match n, ps with
  | S n', p :: ps' =>
      let (rest, cursor') :=
        initLoop backwardDir rightDir upDir emitters n' ps' (cursor + 7) in
      (initParticle backwardDir rightDir upDir emitters p cursor :: rest, cursor')
  | _, _ => (ps, cursor)
  end.

(** [init(backwardDir, rightDir, upDir)]:
    [initialParticleCount = Math.min(20, config.count)] slots. *)
Definition init (backwardDir rightDir upDir : option Vector3) (s : State)
    (cursor : nat) : State * nat :=
  let (ps, cursor') :=
    initLoop backwardDir rightDir upDir (emitterPositions s)
      (Nat.min 20 (count config)) (particles s) cursor in
  (mkState ps (emitterPositions s) (activeParticles s), cursor').

End WithRandom.

End WarmStart.

(** ** The exhaust tick ([tickParticles], index.js 220-319) *)

Module Tick.

(** What [tickParticles] keeps between calls besides the pool:
    [particles.visible], [particles.position] and, in [particles.userData],
    [initialized] and the pair [lastDirection], [lastBoostState], which are
    only ever written together. *)
Record ExhaustView : Type := mkExhaustView {
  exhaust : Exhaust.State;
  visible : bool;
  particlesPosition : Vector3;
  initialized : bool;
  last : option (Vector3 * bool)
}.

Definition exhaustOffset : R := 0.001.
Definition sideOffset : R := 0.001.
Definition verticalOffset : R := -0.001.

(** The two emitter anchors of lines 259-270, from the heading. *)
Definition emitterAnchors (shipDirection : Vector3) : Vector3 * Vector3 :=
  let exhaustRightDir := normalize (crossVectors shipDirection (mkVector3 0 1 0)) in
  let exhaustUpDir := normalize (crossVectors exhaustRightDir shipDirection) in
  (addScaledVector
     (addScaledVector
        (addScaledVector Vector3_zero shipDirection (- exhaustOffset))
        exhaustRightDir sideOffset)
     exhaustUpDir verticalOffset,
   addScaledVector
     (addScaledVector
        (addScaledVector Vector3_zero shipDirection (- exhaustOffset))
        exhaustRightDir (- sideOffset))
     exhaustUpDir verticalOffset).

(** The test of lines 282-296: the pool is cleared when the backward
    direction turned by more than 0.174 or the boost flag changed since
    the last tick that got this far. *)
Definition mustClear (backwardDir : Vector3) (boost : bool)
    (last : option (Vector3 * bool)) : bool :=
  match last with
  | Some (lastDir, lastBoostState) =>
      Rgtb (angleTo backwardDir lastDir) 0.174
      || negb (Bool.eqb lastBoostState boost)
  | None => false
  end.

Section WithRandom.

Variable random : nat -> R.
Variable config : Exhaust.Config.

(** One call of [tickParticles].  [loaded] is
    [gladiatorGroup.children.length] being non-zero, [shipPosition] the
    world position of the ship and [worldDirection] the vector
    [getWorldDirection] returns. *)
Definition tickParticles (c : Flight.ShipControls) (loaded : bool)
    (shipPosition worldDirection : Vector3) (v : ExhaustView) (cursor : nat)
  : ExhaustView * nat :=
  if Flight.stop c then
    (mkExhaustView (exhaust v) false (particlesPosition v) (initialized v) (last v),
     cursor)
  else if negb loaded then
    (mkExhaustView (exhaust v) true (particlesPosition v) (initialized v) (last v),
     cursor)
  else
    let shipDirection := negate worldDirection in
    let exhaustRightDir := normalize (crossVectors shipDirection (mkVector3 0 1 0)) in
    let exhaustUpDir := normalize (crossVectors exhaustRightDir shipDirection) in
    let anchors := emitterAnchors shipDirection in
    let s1 := Exhaust.setEmitterPositions (fst anchors) (snd anchors) (exhaust v) in
    let exhaustBackwardDir := negate shipDirection in
    let s2 :=
      if mustClear exhaustBackwardDir (Flight.boost c) (last v)
      then Exhaust.clearAllParticles s1 else s1 in
    let '(s3, cursor3) :=
      if initialized v then (s2, cursor)
      else WarmStart.init random config (Some exhaustBackwardDir)
             (Some exhaustRightDir) (Some exhaustUpDir) s2 cursor in
    let '(s4, cursor4) :=
      Exhaust.update random config (1 / 60) (Flight.speed c) (Flight.boost c)
        (Some exhaustBackwardDir) (Some exhaustRightDir) (Some exhaustUpDir)
        s3 cursor3 in
    (mkExhaustView s4 true shipPosition true
       (Some (exhaustBackwardDir, Flight.boost c)),
     cursor4).

(** The ticks of a run, one per frame, under the inputs of each frame. *)
Fixpoint ticks (frames : list (Flight.ShipControls * bool * Vector3 * Vector3))
    (v : ExhaustView) (cursor : nat) : ExhaustView * nat :=
  match frames with
  | [] => (v, cursor)
  | (c, loaded, shipPosition, worldDirection) :: frames' =>
      let (v', cursor') :=
        tickParticles c loaded shipPosition worldDirection v cursor in
      ticks frames' v' cursor'
  end.

End WithRandom.

End Tick.

(** ** Construction of the eruption pool ([createSolarSystem.js] 650-685) *)

Module EruptionInit.
Import Eruption.

(** [const particleCount = 150]. *)
Definition particleCount : nat := 150.

(** [const SUN_RADIUS = 100 * 1.5], the radius of the sun mesh. *)
Definition SUN_RADIUS : R := 100 * 1.5.

Section WithRandom.

Variable random : nat -> R.

(** The slot built by one pass of the loop of lines 658-685 (seven draws:
    theta, phi, two colour channels, size, lifetime, current life). *)
Definition initParticle (cursor : nat) : Particle :=
  let position' := spherePoint (random cursor) (random (cursor + 1)) in
  let lifetime := 1 + random (cursor + 5) * 3 in
  mkParticle position' (radialVelocity position')
    (2 + random (cursor + 4) * 3)
    (random (cursor + 6) * lifetime) lifetime.

(** The colour of the slot: [colors[3i..3i+2]]. *)
Definition initColor (cursor : nat) : Exhaust.Color :=
  Exhaust.mkColor 1.0 (0.3 + random (cursor + 2) * 0.4) (random (cursor + 3) * 0.2).

Fixpoint initParticles (n cursor : nat) : list Particle :=
  match n with
  | O => []
  | S n' => initParticle cursor :: initParticles n' (cursor + 7)
  end.

End WithRandom.

(** A slot on its ray: its velocity has length 1, its position is
    100 + 15 d along it for a travel time d of at most the life it has
    used, and its life is between 0 and its maximal life, itself between
    1 and 4. *)
Definition onRay (p : Particle) : Prop :=
  exists d : R,
    0 <= d <= max p - current p
    /\ position p
       = mkVector3 ((100 + 15 * d) * vx (velocity p))
           ((100 + 15 * d) * vy (velocity p))
           ((100 + 15 * d) * vz (velocity p))
    /\ length (velocity p) = 1
    /\ 0 <= current p <= max p
    /\ 1 <= max p <= 4.

End EruptionInit.

(** ** Lights of the gas giants ([updateGasGiantLights], index.js 325-352) *)

Module Lights.

Definition EARTH_RADIUS : R := 10.
Definition JUPITER_RADIUS_RATIO : R := 11.2.
Definition SATURN_RADIUS_RATIO : R := 9.45.

(** [a.sub(b)]. *)
Definition sub (a b : Vector3) : Vector3 :=
  mkVector3 (vx a - vx b) (vy a - vy b) (vz a - vz b).

(** For a planet at world position [planetPosition] and of radius ratio
    [ratio]: the position given to its point light and the position given
    to its spotlight. *)
Definition lightPositions (planetPosition : Vector3) (ratio : R)
  : Vector3 * Vector3 :=
  let toSun := normalize (sub (mkVector3 0 0 0) planetPosition) in
  (addScaledVector planetPosition toSun (EARTH_RADIUS * ratio * 1.1),
   addScaledVector planetPosition toSun (-3000)).

(** [updateGasGiantLights()]: the four positions it assigns, for jupiter
    and for saturn. *)
Definition updateGasGiantLights (jupiterPosition saturnPosition : Vector3)
  : (Vector3 * Vector3) * (Vector3 * Vector3) :=
  (lightPositions jupiterPosition JUPITER_RADIUS_RATIO,
   lightPositions saturnPosition SATURN_RADIUS_RATIO).

End Lights.

(** ** The frame clock of [animate] (index.js 354-394) *)

Module Clock.

(** [lastTime] and the [time] uniform of the sun shader (the flare ring
    and the atmosphere receive the same increments). *)
Record State : Type := mkState { lastTime : R; time : R }.

(** [const delta = (timestamp - lastTime) / 1000]. *)
Definition frameDelta (timestamp : R) (s : State) : R :=
  (timestamp - lastTime s) / 1000.

(** The clock part of one call [animate(timestamp)]. *)
Definition animate (timestamp : R) (s : State) : State :=
  let delta := frameDelta timestamp s in
  mkState timestamp (time s + delta).

(** The calls of a run, in order. *)
Fixpoint frames (timestamps : list R) (s : State) : State :=
  match timestamps with
  | [] => s
  | t :: ts => frames ts (animate t s)
  end.

End Clock.

(** ** Star field ([getStarfield], unnamed part 000) *)

Module Starfield.

(** [Math.min(options.numStars || 500, 5000)], for an integer or missing
    [options.numStars]: a missing or zero value gives 500. *)
Definition numStars (option_numStars : option Z) : Z :=
  let n := match option_numStars with
           | None => 500%Z
           | Some z => if Z.eqb z 0 then 500%Z else z
           end in
  Z.min n 5000.

(** A star: what [randomSpherePoint()] returns, with the saturation and
    the lightness the loop draws for it. *)
Record Star : Type := mkStar {
  pos : Vector3;
  hue : R;
  minDist : R;
  saturation : R;
  lightness : R
}.

Section WithRandom.

Variable random : nat -> R.

(** The hue of lines 23-34, for the draws [colorType] and [h]. *)
Definition pickHue (colorType h : R) : R :=
  if Rltb colorType 0.7 then 0.6 + h * 0.1
  else if Rltb colorType 0.85 then h * 0.1
  else 0.3 + h * 0.2.

(** One pass of the loop of lines 46-58: seven draws. *)
Definition star (cursor : nat) : Star :=
  let radius := random cursor * 3000 + 3000 in
  let u := random (cursor + 1) in
  let v := random (cursor + 2) in
  let theta := 2 * PI * u in
  let phi := acos (2 * v - 1) in
  let x := radius * sin phi * cos theta in
  let y := radius * sin phi * sin theta in
  let z := radius * cos phi in
  let hue := pickHue (random (cursor + 3)) (random (cursor + 4)) in
  mkStar (mkVector3 x y z) hue radius
    (0.3 + random (cursor + 5) * 0.5)
    (0.6 + random (cursor + 6) * 0.4).

Fixpoint stars (n cursor : nat) : list Star :=
  match n with
  | O => []
  | S n' => star cursor :: stars n' (cursor + 7)
  end.

(** [getStarfield(options)]: the stars, in order ([positions]). *)
Definition getStarfield (option_numStars : option Z) (cursor : nat) : list Star :=
  stars (Z.to_nat (numStars option_numStars)) cursor.

(** The array [verts]: three numbers a star. *)
Definition verts (l : list Star) : list R :=
  flat_map (fun s => [vx (pos s); vy (pos s); vz (pos s)]) l.

End WithRandom.

End Starfield.

(** ** Ring geometry ([createRingGeometry], createSolarSystem.js 917-955) *)

Module Ring.

(** The six numbers pushed to [vertices] at step [i]. *)
Definition vertexPair (innerRadius outerRadius : R) (segments i : nat) : list R :=
  let theta := (INR i / INR segments) * PI * 2 in
  let cosTheta := cos theta in
  let sinTheta := sin theta in
  [innerRadius * cosTheta; 0; innerRadius * sinTheta;
   outerRadius * cosTheta; 0; outerRadius * sinTheta].

(** The four numbers pushed to [uvs] at step [i]. *)
Definition uvPair (segments i : nat) : list R :=
  [INR i / INR segments; 0; INR i / INR segments; 1].

(** The six indices pushed at step [i] of the second loop. *)
Definition faceIndices (i : nat) : list nat :=
  let baseIndex := (i * 2)%nat in
  [baseIndex; (baseIndex + 1)%nat; (baseIndex + 2)%nat;
   (baseIndex + 1)%nat; (baseIndex + 3)%nat; (baseIndex + 2)%nat].

Record Geometry : Type := mkGeometry {
  vertices : list R;
  uvs : list R;
  indices : list nat
}.

(** [createRingGeometry(innerRadius, outerRadius, segments)]: the first
    loop runs for [i = 0 .. segments], the second for [i = 0 .. segments - 1]. *)
Definition createRingGeometry (innerRadius outerRadius : R) (segments : nat)
  : Geometry :=
  mkGeometry
    (flat_map (vertexPair innerRadius outerRadius segments) (seq 0 (S segments)))
    (flat_map (uvPair segments) (seq 0 (S segments)))
    (flat_map faceIndices (seq 0 segments)).

(** Vertex [k] of a position array of item size 3. *)
Definition vertexAt (vs : list R) (k : nat) : Vector3 :=
  mkVector3 (nth (3 * k) vs 0) (nth (3 * k + 1) vs 0) (nth (3 * k + 2) vs 0).

(** The number of vertices of a position array. *)
Definition vertexCount (vs : list R) : nat := (List.length vs / 3)%nat.

End Ring.

(** ** Runs of key events and of boosted camera frames *)

Module Run.
Import Flight.

(** A [keydown] or a [keyup] event with its [code]. *)
Inductive KeyEvent : Type :=
| KeyDown (code : string)
| KeyUp (code : string).

(** The listeners of lines 707-708 on one event. *)
Definition handleEvent (ev : KeyEvent) (w : World) : World :=
  match ev with
  | KeyDown code => handleKeyDown code w
  | KeyUp code => handleKeyUp code w
  end.

(** The events of a run, in order. *)
Definition handleEvents (evs : list KeyEvent) (w : World) : World :=
  fold_left (fun w ev => handleEvent ev w) evs w.

(** [n] camera steps in a row under boost, the ship at rest. *)
Fixpoint boostedFollow (n : nat) (matrixWorld : Matrix4) (shipPosition : Vector3)
    (cam : Camera) : Camera :=
  match n with
  | O => cam
  | S n' =>
      cameraFollow true matrixWorld shipPosition
        (boostedFollow n' matrixWorld shipPosition cam)
  end.

(** A flag as a number. *)
Definition flag (b : bool) : R := if b then 1 else 0.

(** An exhaust view with a history: initialised, last seen heading back
    along -z with the boost flag set. *)
Definition boostedView : Tick.ExhaustView :=
  Tick.mkExhaustView Sample.clearedExhaust true Vector3_zero true
    (Some (mkVector3 0 0 (-1), true)).

(** The branches of the dead slots of one call of [update], in index
    order. *)
Definition deadOnly (bs : list Exhaust.Branch) : list Exhaust.Branch :=
  filter (fun b => negb (Exhaust.Branch_eqb Exhaust.Aged b)) bs.

End Run.

(** ** The world matrix of the ship within a frame *)

Module WorldMatrix.
Import Flight.




Section WithCompose.

(** THREE's [Matrix4.compose(position, quaternion, scale)] at the scale
    (1, 1, 1) of [gladiatorGroup].  [getWorldPosition],
    [getWorldDirection] and [getWorldQuaternion] each call
    [updateWorldMatrix], which composes [matrixWorld] anew from the
    position and quaternion of that moment (the parent is the scene, whose
    world matrix is the identity); nothing else in the frame writes it. *)
Variable compose : Vector3 -> Quaternion -> Matrix4.




End WithCompose.

(** The controls after W went down on the page as loaded. *)
Definition pitchingControls : ShipControls :=
  shipControls
    (handleKeyDown "KeyW" (mkWorld initialControls Sample.clearedExhaust)).

(** An eruption slot as a reset leaves it when its size draw is 0: on the
    sphere, size 2, all of its 2 seconds left. *)
Definition freshSlot : Eruption.Particle :=
  Eruption.mkParticle (mkVector3 100 0 0) (mkVector3 1 0 0) 2 2 2.

End WorldMatrix.

(** * Properties *)

(** ** Comparisons and [Math.ceil] *)

Lemma Rltb_true (x y : R) : Rltb x y = true <-> x < y.
Proof. unfold Rltb; destruct (Rlt_dec x y); split; intros; congruence || tauto. Qed.

Lemma Rltb_false (x y : R) : Rltb x y = false <-> y <= x.
Proof.
  unfold Rltb; destruct (Rlt_dec x y); split; intros; try congruence; lra.
Qed.

Lemma Rleb_true (x y : R) : Rleb x y = true <-> x <= y.
Proof. unfold Rleb; destruct (Rle_dec x y); split; intros; congruence || tauto. Qed.

Lemma Rleb_false (x y : R) : Rleb x y = false <-> y < x.
Proof.
  unfold Rleb; destruct (Rle_dec x y); split; intros; try congruence; lra.
Qed.

Lemma Rgeb_true (x y : R) : Rgeb x y = true <-> x >= y.
Proof. unfold Rgeb; rewrite Rleb_true; split; lra. Qed.

Lemma Rgeb_false (x y : R) : Rgeb x y = false <-> x < y.
Proof. unfold Rgeb; apply Rleb_false. Qed.

Lemma Rgtb_true (x y : R) : Rgtb x y = true <-> x > y.
Proof. unfold Rgtb; rewrite Rltb_true; split; lra. Qed.

Lemma Rgtb_false (x y : R) : Rgtb x y = false <-> x <= y.
Proof. unfold Rgtb; apply Rltb_false. Qed.

(** Decide a comparison between two numerals in the goal. *)
Ltac Rcompare :=
  repeat match goal with
  | |- context [Rltb ?x ?y] =>
      first [ replace (Rltb x y) with true by (symmetry; apply Rltb_true; lra)
            | replace (Rltb x y) with false by (symmetry; apply Rltb_false; lra) ]
  | |- context [Rleb ?x ?y] =>
      first [ replace (Rleb x y) with true by (symmetry; apply Rleb_true; lra)
            | replace (Rleb x y) with false by (symmetry; apply Rleb_false; lra) ]
  end.

Lemma Math_ceil_eq (z : Z) (x : R) : IZR z - 1 < x <= IZR z -> Math_ceil x = IZR z.
Proof. intros H; unfold Math_ceil; now rewrite (Zceil_eq z x H). Qed.

Lemma Math_min_IZR (a b : Z) : Math_min (IZR a) (IZR b) = IZR (Z.min a b).
Proof.
  unfold Math_min, Rmin.
  destruct (Rle_dec (IZR a) (IZR b)) as [H | H].
  - apply le_IZR in H. now rewrite Z.min_l.
  - assert (b < a)%Z by (apply lt_IZR; lra). now rewrite Z.min_r by lia.
Qed.

(** ** Orbits *)

Module OrbitFacts.
Import Orbit.

Lemma length_circle (a rad : R) :
  0 <= rad -> length (mkVector3 (cos a * rad) 0 (sin a * rad)) = rad.
Proof.
  intros Hrad; unfold length; simpl.
  replace (cos a * rad * (cos a * rad) + 0 * 0 + sin a * rad * (sin a * rad))
    with ((Rsqr (sin a) + Rsqr (cos a)) * Rsqr rad) by (unfold Rsqr; ring).
  rewrite sin2_cos2, Rmult_1_l.
  now apply sqrt_Rsqr.
Qed.

Lemma vector3_eq (x y z x' y' z' : R) :
  x = x' -> y = y' -> z = z' -> mkVector3 x y z = mkVector3 x' y' z'.
Proof. now intros -> -> ->. Qed.

Lemma orbit_on_circle (a rad x z : R) :
  0 <= rad -> x = cos a * rad -> z = sin a * rad ->
  length (mkVector3 x 0 z) = rad.
Proof. intros Hrad -> ->; now apply length_circle. Qed.

Ltac orbit_case :=
  unfold orbitAngle; simpl;
  split;
  [ apply vector3_eq; lra
  | match goal with
    | |- context [cos ?a] => apply (orbit_on_circle a); lra
    end ].

(** C1 (as amended).  One frame puts a body whose [position.y] is 0 on the
    circle of its orbit in the plane y = 0, at the angle
    [Date.now() * angularSpeedConst].  For Venus, Earth, Mars, Jupiter,
    Saturn, Uranus, Neptune and Pluto the position is
    (cos(t*k)*radiusAU*auScale, 0, sin(t*k)*radiusAU*auScale) and its length
    radiusAU*auScale; for Mercury the radius is a third of that
    (radiusAU*auScale*5/15); the moon is at 25 = EARTH_RADIUS*2.5 from the
    earth. *)
Theorem orbit_position (b : Body) (now : R) (p : Vector3) :
  vy p = 0 ->
  let q := animateOrbit b now p in
  let k := angularSpeedConst b in
  match radiusAU b with
  | Some r =>
      match b with
      | Mercury =>
          q = specPosition (r / 3) AU_SCALE k now
          /\ length q = r * AU_SCALE / 3
      | _ =>
          q = specPosition r AU_SCALE k now
          /\ length q = r * AU_SCALE
      end
  | None =>
      q = mkVector3 (cos (now * k) * 25) 0 (sin (now * k) * 25)
      /\ length q = 25
  end.
Proof.
  intros Hy.
  unfold animateOrbit, specPosition, orbitX, orbitZ,
    AU_SCALE, MERCURY_AU, VENUS_AU, EARTH_AU, MARS_AU, JUPITER_AU, SATURN_AU,
    URANUS_AU, NEPTUNE_AU, PLUTO_AU, EARTH_RADIUS.
  rewrite Hy.
  destruct b; cbn [radiusAU angularSpeedConst]; 
    unfold AU_SCALE, MERCURY_AU, VENUS_AU, EARTH_AU, MARS_AU, JUPITER_AU,
      SATURN_AU, URANUS_AU, NEPTUNE_AU, PLUTO_AU, EARTH_RADIUS;
    orbit_case.
Qed.

Lemma orbit_position_witness :
  vy (initialPosition Earth) = 0
  /\ animateOrbit Earth 0 (initialPosition Earth)
     = specPosition EARTH_AU AU_SCALE (angularSpeedConst Earth) 0
  /\ length (animateOrbit Earth 0 (initialPosition Earth)) = EARTH_AU * AU_SCALE.
Proof.
  split; [reflexivity | exact (orbit_position Earth 0 (initialPosition Earth) eq_refl)].
Defined.

(** C1 fails for Mercury: at [Date.now() = 0] its system sits at
    (52, 0, 0), not at (156, 0, 0) = (radiusAU*auScale, 0, 0). *)
Lemma orbit_position_mercury_counterexample :
  animateOrbit Mercury 0 (initialPosition Mercury)
    <> specPosition MERCURY_AU AU_SCALE (angularSpeedConst Mercury) 0
  /\ length (animateOrbit Mercury 0 (initialPosition Mercury))
       <> MERCURY_AU * AU_SCALE.
Proof.
  assert (Hx : orbitX Mercury 0 = 52).
  { unfold orbitX, orbitAngle, AU_SCALE, MERCURY_AU. rewrite Rmult_0_l, cos_0. lra. }
  assert (Hz : orbitZ Mercury 0 = 0).
  { unfold orbitZ, orbitAngle, AU_SCALE, MERCURY_AU. rewrite Rmult_0_l, sin_0. lra. }
  unfold animateOrbit, specPosition; rewrite Hx, Hz; simpl.
  split.
  - intros H. apply (f_equal vx) in H; simpl in H.
    rewrite Rmult_0_l, cos_0 in H. unfold MERCURY_AU, AU_SCALE in H. lra.
  - unfold length; simpl.
    replace (52 * 52 + 0 * 0 + 0 * 0) with (Rsqr 52) by (unfold Rsqr; ring).
    rewrite sqrt_Rsqr by lra. unfold MERCURY_AU, AU_SCALE. lra.
Qed.

End OrbitFacts.

(** ** Exhaust particle system *)

Module ExhaustFacts.
Import Exhaust.

(** The budget is an integer. *)
Lemma particlesPerEmitter_integer (shipVelocity : R) (isBoost : bool) :
  exists z : Z, particlesPerEmitter shipVelocity isBoost = IZR z.
Proof.
  unfold particlesPerEmitter, Math_ceil.
  destruct isBoost; rewrite Math_min_IZR; eexists; reflexivity.
Qed.

Lemma particlesPerEmitter_rest : particlesPerEmitter 0 false = 0.
Proof.
  unfold particlesPerEmitter.
  rewrite (Math_ceil_eq 0) by lra.
  unfold Math_min, Rmin. destruct (Rle_dec 1 0); lra.
Qed.

Lemma respawnCount_cons (b : Branch) (bs : list Branch) :
  respawnCount (b :: bs)
  = ((if Branch_eqb Respawned b then 1 else 0) + respawnCount bs)%nat.
Proof. unfold respawnCount; destruct b; reflexivity. Qed.

Section Loop.

Variable random : nat -> R.
Variable config : Config.
Variables delta shipVelocity budget : R.
Variables backwardDir rightDir upDir : option Vector3.
Variable emitters : Vector3 * Vector3.

Let step := updateParticle random config delta shipVelocity budget
              backwardDir rightDir upDir emitters.
Let loop := updateLoop random config delta shipVelocity budget
              backwardDir rightDir upDir emitters.

(** The three ways through the loop body. *)
Lemma updateParticle_cases (p : Particle) (active cursor : nat) :
  (lifetime p >= maxLifetime p /\ INR active < budget
   /\ step p active cursor
      = (Respawned,
         respawn random config shipVelocity backwardDir rightDir upDir emitters p cursor,
         S active, (cursor + 4)%nat))
  \/ (lifetime p >= maxLifetime p /\ budget <= INR active
      /\ step p active cursor = (Waiting, p, active, cursor))
  \/ (lifetime p < maxLifetime p
      /\ step p active cursor = (Aged, age delta p, active, cursor)).
Proof.
  unfold step, updateParticle.
  destruct (Rgeb (lifetime p) (maxLifetime p)) eqn:Hdead.
  - apply Rgeb_true in Hdead.
    destruct (Rltb (INR active) budget) eqn:Hroom.
    + apply Rltb_true in Hroom. left. auto.
    + apply Rltb_false in Hroom. right; left. auto.
  - apply Rgeb_false in Hdead. right; right. auto.
Qed.

Lemma updateLoop_cons (p : Particle) (ps : list Particle) (active cursor : nat) :
  loop (p :: ps) active cursor
  = let '(b, p', active', cursor') := step p active cursor in
    let '(rest, active'', cursor'') := loop ps active' cursor' in
    ((b, p') :: rest, active'', cursor'').
Proof. reflexivity. Qed.

(** The counter grows by the number of respawns. *)
Lemma updateLoop_counter (ps : list Particle) (active cursor : nat) :
  snd (fst (loop ps active cursor))
  = (active + respawnCount (map fst (fst (fst (loop ps active cursor)))))%nat.
Proof.
  revert active cursor; induction ps as [| p ps IH]; intros active cursor.
  - simpl. unfold respawnCount; simpl. lia.
  - rewrite updateLoop_cons.
    destruct (updateParticle_cases p active cursor)
      as [(_ & _ & E) | [(_ & _ & E) | (_ & E)]]; rewrite E;
      match goal with
      | |- context [loop ps ?a ?c] =>
          specialize (IH a c); destruct (loop ps a c) as [[rest a''] c'']
      end;
      simpl in *; rewrite respawnCount_cons; simpl; lia.
Qed.

(** The counter never passes an integer budget it started below. *)
Lemma updateLoop_bound (z : Z) (ps : list Particle) (active cursor : nat) :
  budget = IZR z ->
  INR (snd (fst (loop ps active cursor))) <= Rmax (INR active) budget.
Proof.
  intros Hz; revert active cursor; induction ps as [| p ps IH]; intros active cursor.
  - simpl. apply Rmax_l.
  - rewrite updateLoop_cons.
    destruct (updateParticle_cases p active cursor)
      as [(_ & Hroom & E) | [(_ & _ & E) | (_ & E)]]; rewrite E;
      match goal with
      | |- context [loop ps ?a ?c] =>
          specialize (IH a c); destruct (loop ps a c) as [[rest a''] c'']
      end;
      simpl in *; try exact IH.
    assert (Hs : INR (S active) <= budget).
    { rewrite Hz in *. rewrite INR_IZR_INZ in *.
      apply IZR_le. apply lt_IZR in Hroom. lia. }
    eapply Rle_trans; [exact IH |].
    rewrite Rmax_right by exact Hs. apply Rmax_r.
Qed.

(** The respawns of one run of the loop fit in the budget, when it is
    positive, and there is none otherwise. *)
Lemma updateLoop_respawns (z : Z) (ps : list Particle) (active cursor : nat) :
  budget = IZR z ->
  INR (respawnCount (map fst (fst (fst (loop ps active cursor))))) <= Rmax 0 budget.
Proof.
  intros Hz.
  pose proof (updateLoop_counter ps active cursor) as Hc.
  pose proof (updateLoop_bound z ps active cursor Hz) as Hb.
  rewrite Hc, plus_INR in Hb.
  pose proof (pos_INR active) as Ha.
  unfold Rmax in *.
  destruct (Rle_dec (INR active) budget), (Rle_dec 0 budget); lra.
Qed.

(** What the loop does to each slot, whatever the counter and the draws:
    a dead slot is reset or left as it is, a live slot is moved. *)
Lemma updateLoop_slots (ps : list Particle) (active cursor : nat) :
  Forall2
    (fun p bp =>
       match fst bp with
       | Respawned =>
           lifetime p >= maxLifetime p
           /\ exists a c, INR a < budget
                /\ snd bp
                   = respawn random config shipVelocity backwardDir rightDir upDir
                       emitters p c
       | Waiting => lifetime p >= maxLifetime p /\ snd bp = p
       | Aged => lifetime p < maxLifetime p /\ snd bp = age delta p
       end)
    ps (fst (fst (loop ps active cursor))).
Proof.
  revert active cursor; induction ps as [| p ps IH]; intros active cursor.
  - constructor.
  - rewrite updateLoop_cons.
    destruct (updateParticle_cases p active cursor)
      as [(Hd & Hroom & E) | [(Hd & _ & E) | (Hl & E)]]; rewrite E;
      match goal with
      | |- context [loop ps ?a ?c] =>
          specialize (IH a c); destruct (loop ps a c) as [[rest a''] c'']
      end;
      simpl in *; constructor; simpl; auto.
    split; auto. now exists active, cursor.
Qed.

End Loop.

End ExhaustFacts.

Module ExhaustSpec.
Import Exhaust ExhaustFacts.

Lemma Forall2_Forall_impl {A B : Type} (P : A -> Prop) (Q T : A -> B -> Prop)
    (l : list A) (l' : list B) :
  (forall a b, P a -> Q a b -> T a b) ->
  Forall P l -> Forall2 Q l l' -> Forall2 T l l'.
Proof.
  intros HT HP HQ; induction HQ; constructor; inversion HP; subst; auto.
Qed.

Lemma update_particles (random : nat -> R) (config : Config)
    (delta shipVelocity : R) (isBoost : bool)
    (backwardDir rightDir upDir : option Vector3) (s : State) (cursor : nat) :
  particles (fst (update random config delta shipVelocity isBoost
                    backwardDir rightDir upDir s cursor))
  = map snd (fst (fst (updateRun random config delta shipVelocity isBoost
                         backwardDir rightDir upDir s cursor))).
Proof.
  unfold update.
  now destruct (updateRun random config delta shipVelocity isBoost
                  backwardDir rightDir upDir s cursor) as [[slots a] c].
Qed.

Lemma update_activeParticles (random : nat -> R) (config : Config)
    (delta shipVelocity : R) (isBoost : bool)
    (backwardDir rightDir upDir : option Vector3) (s : State) (cursor : nat) :
  activeParticles (fst (update random config delta shipVelocity isBoost
                          backwardDir rightDir upDir s cursor)) = 0%nat.
Proof.
  unfold update.
  now destruct (updateRun random config delta shipVelocity isBoost
                  backwardDir rightDir upDir s cursor) as [[slots a] c].
Qed.

Lemma respawns_count_bound (random : nat -> R) (config : Config)
    (delta shipVelocity : R) (isBoost : bool)
    (backwardDir rightDir upDir : option Vector3) (s : State) (cursor : nat) :
  INR (respawnCount (updateBranches random config delta shipVelocity isBoost
                       backwardDir rightDir upDir s cursor))
    <= Rmax 0 (particlesPerEmitter shipVelocity isBoost).
Proof.
  destruct (particlesPerEmitter_integer shipVelocity isBoost) as [z Hz].
  unfold updateBranches, updateRun.
  now apply (updateLoop_respawns random config _ shipVelocity _ _ _ _ _ z).
Qed.

Lemma particlesPerEmitter_nonneg (shipVelocity : R) (isBoost : bool) :
  0 <= shipVelocity -> 0 <= particlesPerEmitter shipVelocity isBoost.
Proof.
  intros Hv.
  assert (Hceil : forall x : R, 0 <= x -> 0 <= Math_ceil x).
  { intros x Hx. unfold Math_ceil. apply IZR_le.
    replace 0%Z with (Zceil 0) by (apply (Zceil_eq 0); lra).
    now apply Zceil_le. }
  unfold particlesPerEmitter, Math_min.
  destruct isBoost; apply Rmin_glb; try lra; apply Hceil; lra.
Qed.

(** C3.  In one call of [update] with a ship speed that is not negative,
    the respawns of all slots, of both emitters together, number at most
    the budget boosting ? min(3, ceil(shipSpeed*1)) :
    min(1, ceil(shipSpeed*0.5)): the counter they share is compared with
    that budget for every slot, and it is 0 again when [update] or
    [clearAllParticles] returns, and so at the start of every call. *)
Theorem respawns_within_budget (random : nat -> R) (config : Config)
    (delta shipVelocity : R) (isBoost : bool)
    (backwardDir rightDir upDir : option Vector3) (s : State) (cursor : nat) :
  0 <= shipVelocity ->
  INR (respawnCount (updateBranches random config delta shipVelocity isBoost
                       backwardDir rightDir upDir s cursor))
    <= particlesPerEmitter shipVelocity isBoost
  /\ activeParticles (fst (update random config delta shipVelocity isBoost
                             backwardDir rightDir upDir s cursor)) = 0%nat
  /\ activeParticles (clearAllParticles s) = 0%nat
  /\ activeParticles (fst (getShipExhaust random config cursor)) = 0%nat.
Proof.
  intros Hv. split; [| split; [apply update_activeParticles | split]].
  - pose proof (respawns_count_bound random config delta shipVelocity isBoost
                  backwardDir rightDir upDir s cursor) as H.
    rewrite Rmax_right in H by (now apply particlesPerEmitter_nonneg).
    exact H.
  - reflexivity.
  - unfold getShipExhaust.
    now destruct (initParticles random config (count config) 0 cursor).
Qed.

Lemma respawns_within_budget_witness :
  0 <= 0.4
  /\ INR (respawnCount
            (updateBranches Sample.halves Sample.twoSlots (1 / 60) 0.4 false
               None None None Sample.clearedExhaust 0))
     <= particlesPerEmitter 0.4 false.
Proof.
  split; [lra |].
  apply (respawns_within_budget Sample.halves Sample.twoSlots (1 / 60) 0.4 false
           None None None Sample.clearedExhaust 0).
  lra.
Defined.

Lemma Math_min_nonneg (delta : R) : 0 <= delta -> 0 <= Math_min delta 0.1.
Proof. intros H; unfold Math_min; apply Rmin_glb; lra. Qed.

(** C4 (as amended).  In one call of [update] with dt >= 0 on slots of
    non-negative age, every slot ends with a non-negative age, and it went
    one of three ways: reset, with age exactly 0; dead and not reset, with
    nothing of it changed; live, with its age grown by the clamped dt,
    its maxAge kept and the new age below maxAge plus the clamped dt. *)
Theorem age_after_step (random : nat -> R) (config : Config)
    (delta shipVelocity : R) (isBoost : bool)
    (backwardDir rightDir upDir : option Vector3) (s : State) (cursor : nat) :
  0 <= delta ->
  Forall (fun p => 0 <= lifetime p) (particles s) ->
  let slots := fst (fst (updateRun random config delta shipVelocity isBoost
                           backwardDir rightDir upDir s cursor)) in
  particles (fst (update random config delta shipVelocity isBoost
                    backwardDir rightDir upDir s cursor)) = map snd slots
  /\ Forall2
       (fun p bp =>
          0 <= lifetime (snd bp)
          /\ match fst bp with
             | Respawned => lifetime p >= maxLifetime p /\ lifetime (snd bp) = 0
             | Waiting => lifetime p >= maxLifetime p /\ snd bp = p
             | Aged =>
                 lifetime p < maxLifetime p
                 /\ lifetime (snd bp) = lifetime p + Math_min delta 0.1
                 /\ lifetime p <= lifetime (snd bp)
                 /\ maxLifetime (snd bp) = maxLifetime p
                 /\ lifetime (snd bp) < maxLifetime (snd bp) + Math_min delta 0.1
             end)
       (particles s) slots.
Proof.
  intros Hdelta Hages slots.
  split; [apply update_particles |].
  pose proof (Math_min_nonneg delta Hdelta) as Hd.
  subst slots; unfold updateRun.
  eapply Forall2_Forall_impl; [| exact Hages | apply updateLoop_slots].
  intros p [b p'] Hp; simpl.
  destruct b.
  - intros (Hdead & a & c & _ & ->). simpl. split; [lra | split; [exact Hdead | reflexivity]].
  - intros (Hdead & ->). auto.
  - intros (Hlive & ->). simpl. repeat split; lra.
Qed.

Lemma clearedExhaust_ages :
  Forall (fun p => 0 <= lifetime p) (particles Sample.clearedExhaust).
Proof.
  unfold Sample.clearedExhaust, Sample.freshExhaust, Sample.halves; simpl.
  repeat constructor; simpl; lra.
Qed.

Lemma age_after_step_witness :
  0 <= 1 / 60
  /\ Forall (fun p => 0 <= lifetime p) (particles Sample.clearedExhaust)
  /\ particles (fst (update Sample.halves Sample.twoSlots (1 / 60) 0.4 false
                       None None None Sample.clearedExhaust 0))
     = map snd
         (fst (fst (updateRun Sample.halves Sample.twoSlots (1 / 60) 0.4 false
                      None None None Sample.clearedExhaust 0))).
Proof.
  split; [lra | split; [exact clearedExhaust_ages |]].
  apply (age_after_step Sample.halves Sample.twoSlots (1 / 60) 0.4 false
           None None None Sample.clearedExhaust 0);
    [lra | exact clearedExhaust_ages].
Defined.

Lemma particlesPerEmitter_cruise : particlesPerEmitter 0.4 false = 1.
Proof.
  unfold particlesPerEmitter.
  rewrite (Math_ceil_eq 1) by lra.
  unfold Math_min, Rmin. destruct (Rle_dec 1 1); lra.
Qed.

(** The two slots after [clearAllParticles()] and one [update(1/60, 0.4)]:
    the first is reset, the second is left dead at maxAge + 1. *)
Lemma clearedExhaust_step :
  map (fun bp => (fst bp, lifetime (snd bp), maxLifetime (snd bp)))
    (fst (fst (updateRun Sample.halves Sample.twoSlots (1 / 60) 0.4 false
                 None None None Sample.clearedExhaust 0)))
  = [(Respawned, 0, 1 / 2 * (0.6 - 0.5) + 0.5);
     (Waiting, 1 / 2 * (0.6 - 0.5) + 0.5 + 1, 1 / 2 * (0.6 - 0.5) + 0.5)].
Proof.
  unfold updateRun. rewrite particlesPerEmitter_cruise.
  unfold Sample.clearedExhaust, Sample.freshExhaust, Sample.halves; simpl.
  unfold updateParticle; simpl.
  unfold Rgeb. Rcompare. simpl.
  Rcompare. simpl. reflexivity.
Qed.

(** C4 as stated fails: after [clearAllParticles()] a slot that the budget
    does not reach stays at maxAge + 1, more than one clamped dt above its
    maxAge, through the next [update(1/60, 0.4, false)]. *)
Lemma age_after_clear_counterexample :
  ~ Forall (fun p => lifetime p <= maxLifetime p + Math_min (1 / 60) 0.1)
      (particles (fst (update Sample.halves Sample.twoSlots (1 / 60) 0.4 false
                         None None None Sample.clearedExhaust 0))).
Proof.
  rewrite update_particles.
  pose proof clearedExhaust_step as H.
  destruct (fst (fst (updateRun Sample.halves Sample.twoSlots (1 / 60) 0.4 false
                        None None None Sample.clearedExhaust 0)))
    as [| [b1 p1] [| [b2 p2] [| ? ?]]]; simpl in H; try discriminate.
  injection H as _ _ _ _ H2 H3.
  simpl. intros HF. inversion HF as [| ? ? _ HF']; subst.
  inversion HF' as [| ? ? Hp2 _]; subst.
  rewrite H2, H3 in Hp2.
  unfold Math_min, Rmin in Hp2. destruct (Rle_dec (1 / 60) 0.1); lra.
Qed.

Lemma isLive_true (p : Particle) : isLive p = true <-> lifetime p < maxLifetime p.
Proof.
  unfold isLive. rewrite negb_true_iff. apply Rgeb_false.
Qed.

Lemma liveCount_cons (p : Particle) (ps : list Particle) :
  liveCount (p :: ps) = ((if isLive p then 1 else 0) + liveCount ps)%nat.
Proof. unfold liveCount; simpl. now destruct (isLive p). Qed.

(** Slots that are live only where they were live before are not more. *)
Lemma liveCount_mono (ps ps' : list Particle) :
  Forall2 (fun p p' => isLive p' = true -> isLive p = true) ps ps' ->
  (liveCount ps' <= liveCount ps)%nat.
Proof.
  induction 1 as [| p p' ps ps' Hp _ IH]; [reflexivity |].
  rewrite !liveCount_cons.
  destruct (isLive p') eqn:E'; [rewrite (Hp eq_refl) | destruct (isLive p)]; lia.
Qed.

Lemma Forall2_map_r {A B C : Type} (f : B -> C) (P : A -> C -> Prop)
    (l : list A) (l' : list B) :
  Forall2 (fun a b => P a (f b)) l l' -> Forall2 P l (map f l').
Proof. induction 1; simpl; constructor; auto. Qed.

Lemma Forall2_impl {A B : Type} (P Q : A -> B -> Prop) (l : list A) (l' : list B) :
  (forall a b, P a b -> Q a b) -> Forall2 P l l' -> Forall2 Q l l'.
Proof. intros H; induction 1; constructor; auto. Qed.

(** With a budget of 0 or less no slot takes the reset branch. *)
Lemma updateLoop_no_room (random : nat -> R) (config : Config)
    (delta shipVelocity budget : R) (backwardDir rightDir upDir : option Vector3)
    (emitters : Vector3 * Vector3) (ps : list Particle) (active cursor : nat) :
  budget <= 0 ->
  Forall2
    (fun p bp => snd bp = (if isLive p then age delta p else p)
                 /\ fst bp = (if isLive p then Aged else Waiting))
    ps
    (fst (fst (updateLoop random config delta shipVelocity budget
                 backwardDir rightDir upDir emitters ps active cursor))).
Proof.
  intros Hb.
  eapply Forall2_impl; [| apply updateLoop_slots].
  intros p [b p']; simpl. destruct b.
  - intros (_ & a & c & Ha & _). pose proof (pos_INR a). lra.
  - intros (Hdead & ->).
    destruct (isLive p) eqn:E; [apply isLive_true in E; lra | auto].
  - intros (Hlive & ->). apply isLive_true in Hlive. now rewrite Hlive.
Qed.

(** C10.  [update] with shipSpeed = 0 and no boost has the budget
    min(1, ceil(0*0.5)) = 0: no slot is reset, every slot with
    age >= maxAge comes out as it went in (age, position, velocity, colour
    and all else), a live slot is moved by the clamped dt, and the number
    of live slots does not grow. *)
Theorem no_respawn_at_rest (random : nat -> R) (config : Config) (delta : R)
    (backwardDir rightDir upDir : option Vector3) (s : State) (cursor : nat) :
  let s' := fst (update random config delta 0 false
                   backwardDir rightDir upDir s cursor) in
  particlesPerEmitter 0 false = 0
  /\ respawnCount (updateBranches random config delta 0 false
                     backwardDir rightDir upDir s cursor) = 0%nat
  /\ Forall2 (fun p p' => lifetime p >= maxLifetime p -> p' = p)
       (particles s) (particles s')
  /\ Forall2 (fun p p' => p' = if isLive p then age (Math_min delta 0.1) p else p)
       (particles s) (particles s')
  /\ (liveCount (particles s') <= liveCount (particles s))%nat.
Proof.
  intros s'; subst s'.
  rewrite update_particles.
  pose proof (updateLoop_no_room random config (Math_min delta 0.1) 0
                (particlesPerEmitter 0 false) backwardDir rightDir upDir
                (emitterPositions s) (particles s) (activeParticles s) cursor
                (Req_le _ _ particlesPerEmitter_rest)) as Hslots.
  fold (updateRun random config delta 0 false backwardDir rightDir upDir s cursor)
    in Hslots.
  split; [exact particlesPerEmitter_rest |].
  split.
  { pose proof (respawns_count_bound random config delta 0 false
                  backwardDir rightDir upDir s cursor) as H.
    rewrite particlesPerEmitter_rest, Rmax_left in H by lra.
    destruct (respawnCount _) as [| n]; [reflexivity |].
    rewrite S_INR in H. pose proof (pos_INR n). lra. }
  split; [| split].
  - apply Forall2_map_r. eapply Forall2_impl; [| exact Hslots].
    intros p bp (-> & _) Hdead.
    destruct (isLive p) eqn:E; [apply isLive_true in E; lra | reflexivity].
  - apply Forall2_map_r. eapply Forall2_impl; [| exact Hslots].
    now intros p bp (-> & _).
  - apply liveCount_mono, Forall2_map_r.
    eapply Forall2_impl; [| exact Hslots].
    intros p bp (-> & _).
    destruct (isLive p) eqn:E; [reflexivity | congruence].
Qed.

Lemma sizeMultiplier_boundary : sizeMultiplier 0.2 = 1.
Proof. unfold sizeMultiplier. Rcompare. lra. Qed.

(** Near the boundary the multiplier is within five times the distance
    of its value there. *)
Lemma sizeMultiplier_near_boundary (x d : R) :
  Rabs (x - 0.2) < d -> Rabs (sizeMultiplier x - 1) < 5 * d.
Proof.
  intros H. apply Rabs_def2 in H. apply Rabs_def1;
    unfold sizeMultiplier, Rltb; destruct (Rlt_dec x 0.2); lra.
Qed.

(** C9.  The size multiplier, lifeRatio*5 below lifeRatio = 0.2 and
    1 - (lifeRatio - 0.2)*1.25 from there on, is continuous at 0.2, and so
    is its floor at 0: the value of the left piece at the boundary,
    0.2*5 = 1, is the value 1 - (0.2 - 0.2)*1.25 = 1 of the right piece. *)
Theorem sizeMultiplier_continuous :
  0.2 * 5 = 1
  /\ 1 - (0.2 - 0.2) * 1.25 = 1
  /\ sizeMultiplier 0.2 = 1
  /\ continuity_pt sizeMultiplier 0.2
  /\ continuity_pt (fun lifeRatio => Math_max 0 (sizeMultiplier lifeRatio)) 0.2.
Proof.
  split; [lra | split; [lra | split; [exact sizeMultiplier_boundary |]]].
  split.
  - intros eps Heps. exists (eps / 5). split; [lra |].
    intros x [_ Hx]. simpl in *. unfold R_dist in *.
    rewrite sizeMultiplier_boundary.
    pose proof (sizeMultiplier_near_boundary x (eps / 5) Hx). lra.
  - intros eps Heps. exists (Rmin (eps / 5) (1 / 10)).
    split; [apply Rmin_glb_lt; lra |].
    intros x [_ Hx]. simpl in *. unfold R_dist in *.
    assert (H5 : Rabs (x - 0.2) < eps / 5)
      by (eapply Rlt_le_trans; [exact Hx | apply Rmin_l]).
    assert (H10 : Rabs (x - 0.2) < 1 / 10)
      by (eapply Rlt_le_trans; [exact Hx | apply Rmin_r]).
    rewrite sizeMultiplier_boundary.
    pose proof (sizeMultiplier_near_boundary x (eps / 5) H5) as Hf.
    pose proof (sizeMultiplier_near_boundary x (1 / 10) H10) as Hg.
    apply Rabs_def2 in Hf, Hg.
    unfold Math_max. rewrite !Rmax_right by lra.
    apply Rabs_def1; lra.
Qed.

End ExhaustSpec.

(** ** Sun eruption particle system *)

Module EruptionSpec.
Import Eruption.

Lemma spherePoint_norm (u v : R) :
  let q := spherePoint u v in
  vx q * vx q + vy q * vy q + vz q * vz q = radius * radius.
Proof.
  unfold spherePoint, radius; simpl.
  set (theta := u * PI * 2). set (phi := acos (2 * v - 1)).
  pose proof (sin2_cos2 theta) as Ht. pose proof (sin2_cos2 phi) as Hp.
  unfold Rsqr in Ht, Hp.
  replace (100 * sin phi * cos theta * (100 * sin phi * cos theta)
           + 100 * sin phi * sin theta * (100 * sin phi * sin theta)
           + 100 * cos phi * (100 * cos phi))
    with (100 * 100
          * (sin phi * sin phi * (sin theta * sin theta + cos theta * cos theta)
             + cos phi * cos phi)) by ring.
  rewrite Ht, Rmult_1_r, Hp. ring.
Qed.

Lemma spherePoint_length (u v : R) : length (spherePoint u v) = radius.
Proof.
  unfold length. rewrite spherePoint_norm.
  apply sqrt_square. unfold radius; lra.
Qed.

(** The height of the point is affine in the second draw. *)
Lemma spherePoint_height (u v : R) :
  0 <= v <= 1 -> vz (spherePoint u v) = radius * (2 * v - 1).
Proof.
  intros Hv. unfold spherePoint; simpl. rewrite cos_acos by lra. reflexivity.
Qed.

Lemma update_cons (random : nat -> R) (delta : R) (p : Particle)
    (ps : list Particle) (cursor : nat) :
  fst (update random delta (p :: ps) cursor)
  = fst (updateParticle random delta p cursor)
    :: fst (update random delta ps (snd (updateParticle random delta p cursor))).
Proof.
  cbn [update]. destruct (updateParticle random delta p cursor) as [p' c'].
  cbn [fst snd]. now destruct (update random delta ps c').
Qed.

Lemma update_app (random : nat -> R) (delta : R) (pre post : list Particle)
    (cursor : nat) :
  fst (update random delta (pre ++ post) cursor)
  = fst (update random delta pre cursor)
    ++ fst (update random delta post (snd (update random delta pre cursor)))
  /\ snd (update random delta (pre ++ post) cursor)
     = snd (update random delta post (snd (update random delta pre cursor))).
Proof.
  revert cursor; induction pre as [| p pre IH]; intros cursor.
  - split; reflexivity.
  - change ((p :: pre) ++ post) with (p :: (pre ++ post)).
    cbn [update].
    destruct (updateParticle random delta p cursor) as [p' c'].
    destruct (IH c') as [H1 H2].
    destruct (update random delta (pre ++ post) c') as [l1 c1].
    destruct (update random delta pre c') as [l2 c2].
    cbn [fst snd] in *. rewrite H1, H2. split; reflexivity.
Qed.

Lemma halves_range : forall k : nat, 0 <= Sample.halves k < 1.
Proof. intros k; unfold Sample.halves; lra. Qed.

(** C8 (as amended).  [update(delta)] visits the slots in index order,
    each with the draws that follow those of the slots before it, and
    takes delta off the remaining life of the slot.  If the life is then 0
    or less, the slot takes four draws u, v, w, s: it is put at the point
    of the sphere of radius 100 with azimuth 2*pi*u and height
    100*(2v - 1) (the map that sends uniform draws to the uniform
    distribution on the sphere), its velocity is 0.01 times that position,
    its life and maximal life are 1 + 3w, in [1, 4), and its size is
    2 + 3s.  Otherwise it takes one draw u: it moves by velocity*delta*15,
    keeps its velocity and maximal life, and its size becomes the fresh
    base 2 + 3u, in [2, 5), times remaining life / maximal life, whatever
    its size was. *)
Theorem eruption_step (random : nat -> R) (delta : R) (pre post : list Particle)
    (p : Particle) (cursor : nat) :
  (forall k, 0 <= random k < 1) ->
  let c := snd (update random delta pre cursor) in
  let r := updateParticle random delta p c in
  let q := spherePoint (random c) (random (c + 1)%nat) in
  fst (update random delta (pre ++ p :: post) cursor)
  = fst (update random delta pre cursor)
    ++ fst r :: fst (update random delta post (snd r))
  /\ (current p - delta <= 0 ->
      fst r
      = mkParticle q
          (mkVector3 (vx q * 0.01) (vy q * 0.01) (vz q * 0.01))
          (2 + random (c + 3)%nat * 3)
          (1 + random (c + 2)%nat * 3) (1 + random (c + 2)%nat * 3)
      /\ snd r = (c + 4)%nat
      /\ q = mkVector3 (100 * sin (acos (2 * random (c + 1)%nat - 1))
                          * cos (random c * PI * 2))
                (100 * sin (acos (2 * random (c + 1)%nat - 1))
                 * sin (random c * PI * 2))
                (100 * (2 * random (c + 1)%nat - 1))
      /\ length q = 100
      /\ 1 <= max (fst r) < 4)
  /\ (0 < current p - delta ->
      fst r
      = mkParticle
          (mkVector3 (vx (position p) + vx (velocity p) * delta * 15)
             (vy (position p) + vy (velocity p) * delta * 15)
             (vz (position p) + vz (velocity p) * delta * 15))
          (velocity p)
          ((2 + random c * 3) * ((current p - delta) / max p))
          (current p - delta) (max p)
      /\ snd r = (c + 1)%nat
      /\ 2 <= 2 + random c * 3 < 5).
Proof.
  intros Hr. cbv zeta.
  set (c := snd (update random delta pre cursor)).
  split; [| split].
  - destruct (update_app random delta pre (p :: post) cursor) as [H _].
    rewrite H. fold c. f_equal. apply update_cons.
  - intros Hdead. unfold updateParticle.
    replace (Rleb (current p - delta) 0) with true
      by (symmetry; apply Rleb_true; exact Hdead).
    cbn [fst snd]. unfold respawn, radialVelocity.
    pose proof (Hr (c + 1)%nat) as Hv. pose proof (Hr (c + 2)%nat) as Hw.
    split; [reflexivity | split; [reflexivity | split; [| split]]].
    + unfold spherePoint, radius. rewrite cos_acos by lra. reflexivity.
    + apply spherePoint_length.
    + cbn [max]. lra.
  - intros Hlive. unfold updateParticle.
    replace (Rleb (current p - delta) 0) with false
      by (symmetry; apply Rleb_false; exact Hlive).
    cbn [fst snd]. unfold advance.
    pose proof (Hr c) as Hu.
    split; [reflexivity | split; [reflexivity | lra]].
Qed.

Lemma eruption_step_witness :
  (forall k : nat, 0 <= Sample.halves k < 1)
  /\ fst (update Sample.halves 0.5 ([] ++ Sample.eruptionSlot :: []) 0)
     = fst (update Sample.halves 0.5 [] 0)
       ++ fst (updateParticle Sample.halves 0.5 Sample.eruptionSlot
                 (snd (update Sample.halves 0.5 [] 0)))
          :: fst (update Sample.halves 0.5 []
                    (snd (updateParticle Sample.halves 0.5 Sample.eruptionSlot
                            (snd (update Sample.halves 0.5 [] 0))))).
Proof.
  split; [exact halves_range |].
  exact (proj1 (eruption_step Sample.halves 0.5 [] [] Sample.eruptionSlot 0
                  halves_range)).
Defined.

(** C8 as stated fails on the size: a slot that stays is not shrunk from
    its size but given a freshly drawn base size times its life ratio.
    The slot of size 2 with all of its 2 seconds left comes out of
    [update(0.1)], under the draw 1/2, with the larger size
    (2 + 3/2) * (1.9 / 2). *)
Lemma eruption_size_grows_counterexample :
  0 < Eruption.current WorldMatrix.freshSlot - 0.1
  /\ map size (fst (update Sample.halves 0.1 [WorldMatrix.freshSlot] 0))
     = [(2 + 1 / 2 * 3) * ((2 - 0.1) / 2)]
  /\ size WorldMatrix.freshSlot < (2 + 1 / 2 * 3) * ((2 - 0.1) / 2).
Proof.
  split; [simpl; lra | split].
  - simpl. unfold updateParticle; simpl. Rcompare. reflexivity.
  - simpl. lra.
Qed.

End EruptionSpec.

(** ** The clamp of the frame delta *)

Module ClampSpec.

Lemma eruptionSlot_step (delta : R) :
  0 < 1 - delta ->
  map Eruption.current
    (fst (Eruption.update Sample.halves delta [Sample.eruptionSlot] 0))
  = [1 - delta].
Proof.
  intros H. simpl. unfold Eruption.updateParticle; simpl.
  Rcompare. reflexivity.
Qed.

(** C5 (as amended).  The exhaust [update] clamps the frame delta: with
    the other arguments and the draws the same, a delta above 0.1 gives the
    state and the draw index delta = 0.1 gives.  The eruption [update] does
    not clamp: a slot that stays takes the whole delta off its life. *)
Theorem exhaust_delta_clamped (random : nat -> R) (config : Exhaust.Config)
    (delta shipVelocity : R) (isBoost : bool)
    (backwardDir rightDir upDir : option Vector3) (s : Exhaust.State)
    (cursor : nat) :
  delta > 0.1 ->
  Exhaust.update random config delta shipVelocity isBoost
    backwardDir rightDir upDir s cursor
  = Exhaust.update random config 0.1 shipVelocity isBoost
      backwardDir rightDir upDir s cursor
  /\ forall (p : Eruption.Particle) (c : nat),
       Rleb (Eruption.current p - delta) 0 = false ->
       Eruption.current (fst (Eruption.updateParticle random delta p c))
       = Eruption.current p - delta.
Proof.
  intros Hd. split.
  - unfold Exhaust.update, Exhaust.updateRun, Math_min.
    rewrite (Rmin_right delta 0.1) by lra.
    rewrite (Rmin_left 0.1 0.1) by lra. reflexivity.
  - intros p c E. unfold Eruption.updateParticle. now rewrite E.
Qed.

Lemma exhaust_delta_clamped_witness :
  0.5 > 0.1
  /\ Exhaust.update Sample.halves Sample.twoSlots 0.5 0.4 false
       None None None Sample.clearedExhaust 0
     = Exhaust.update Sample.halves Sample.twoSlots 0.1 0.4 false
         None None None Sample.clearedExhaust 0.
Proof.
  split; [lra |].
  apply (exhaust_delta_clamped Sample.halves Sample.twoSlots 0.5 0.4 false
           None None None Sample.clearedExhaust 0).
  lra.
Defined.

(** C5 as stated fails for the eruption system: from the same slot,
    [update(0.5)] leaves a life of 0.5 and [update(0.1)] a life of 0.9. *)
Lemma eruption_delta_counterexample :
  0.5 > 0.1
  /\ fst (Eruption.update Sample.halves 0.5 [Sample.eruptionSlot] 0)
     <> fst (Eruption.update Sample.halves 0.1 [Sample.eruptionSlot] 0).
Proof.
  split; [lra |].
  intros H. apply (f_equal (map Eruption.current)) in H.
  rewrite !eruptionSlot_step in H by lra.
  injection H as H. lra.
Qed.

End ClampSpec.

(** ** Ship frame and camera *)

Module FlightSpec.
Import Flight.

Lemma controlSteps_stopped (c : ShipControls) (direction : Vector3)
    (q : Quaternion) (p : Vector3) :
  stop c = true ->
  controlSteps c direction q p = mkMotion p (GetWorldQuaternion q) false.
Proof.
  intros Hs.
  unfold controlSteps, bankRightStep, bankLeftStep, pitchDownStep, pitchUpStep,
    forwardStep.
  rewrite Hs; simpl. rewrite !andb_false_r. reflexivity.
Qed.

(** The rotation flag of the frame: an input flag is set and the ship is
    not stopped. *)
Lemma controlSteps_needRotationUpdate (c : ShipControls) (direction : Vector3)
    (q : Quaternion) (p : Vector3) :
  needRotationUpdate (controlSteps c direction q p)
  = rotationInput c && negb (stop c).
Proof.
  unfold controlSteps, bankRightStep, bankLeftStep, pitchDownStep, pitchUpStep,
    forwardStep, rotationInput.
  destruct (pitchUp c), (pitchDown c), (bankLeft c), (bankRight c), (stop c);
    reflexivity.
Qed.

(** keyDown(stop) sets the stop flag. *)
Lemma stop_after_space (w : World) :
  stop (shipControls (handleKeyDown "Space" w)) = true.
Proof. reflexivity. Qed.

(** C2 (as amended).  While the stop flag is set, one frame leaves the x
    and z coordinates of the ship as they were (no forward and no sideways
    translation), and sets its y coordinate to the float effect,
    sin(Date.now() * 0.001) * 2, or 0 while a pitch key is held. *)
Theorem stopped_ship_position (now : R) (c : ShipControls)
    (worldDirection : Vector3) (matrixWorld : Matrix4) (ship : Ship)
    (cam : Camera) :
  stop c = true ->
  let ship' := fst (animateShip now c worldDirection matrixWorld ship cam) in
  vx (position ship') = vx (position ship)
  /\ vz (position ship') = vz (position ship)
  /\ vy (position ship')
     = sin (now * 0.001) * (if pitchUp c || pitchDown c then 0 else 2).
Proof.
  intros Hs. unfold animateShip; cbn [fst position].
  rewrite controlSteps_stopped by exact Hs.
  unfold floatEffect; cbn. auto.
Qed.

Lemma stopped_ship_position_witness :
  stop Sample.stoppedControls = true
  /\ vx (position (fst (animateShip 0 Sample.stoppedControls Sample.forwardZ
                          Sample.translation Sample.shipAtStart
                          Sample.cameraAtStart)))
     = 400.
Proof.
  split; [apply stop_after_space |].
  apply (stopped_ship_position 0 Sample.stoppedControls Sample.forwardZ
           Sample.translation Sample.shipAtStart Sample.cameraAtStart).
  apply stop_after_space.
Defined.

Lemma stopped_frame_position (now : R) :
  position (fst (animateShip now Sample.stoppedControls Sample.forwardZ
                   Sample.translation Sample.shipAtStart Sample.cameraAtStart))
  = mkVector3 400 (sin (now * 0.001) * 2) 60.
Proof.
  unfold animateShip; cbn [fst position].
  rewrite controlSteps_stopped by reflexivity. reflexivity.
Qed.

(** C2 as stated fails: after keyDown(stop) the frame still writes the
    float effect to [position.y].  The ship placed at y = 20 is moved to
    y = 0 by the frame at [Date.now() = 0], and no value of [Date.now()]
    leaves it in place. *)
Lemma stopped_ship_floats_counterexample :
  stop Sample.stoppedControls = true
  /\ position Sample.shipAtStart = mkVector3 400 20 60
  /\ position (fst (animateShip 0 Sample.stoppedControls Sample.forwardZ
                      Sample.translation Sample.shipAtStart
                      Sample.cameraAtStart))
     = mkVector3 400 0 60
  /\ ~ exists now : R,
         position (fst (animateShip now Sample.stoppedControls Sample.forwardZ
                          Sample.translation Sample.shipAtStart
                          Sample.cameraAtStart))
         = position Sample.shipAtStart.
Proof.
  split; [reflexivity | split; [reflexivity | split]].
  - rewrite stopped_frame_position, Rmult_0_l, sin_0, Rmult_0_l. reflexivity.
  - intros [now H]. rewrite stopped_frame_position in H.
    apply (f_equal vy) in H; simpl in H.
    pose proof (SIN_bound (now * 0.001)). lra.
Qed.

(** The frame slerps by 0.1 toward the target exactly when a rotation flag
    is set and the stop flag is not, and by 0.02 toward the level
    orientation otherwise. *)
Lemma smoothing_by_flags (now : R) (c : ShipControls)
    (worldDirection : Vector3) (matrixWorld : Matrix4) (ship : Ship)
    (cam : Camera) :
  quaternion (fst (animateShip now c worldDirection matrixWorld ship cam))
  = (if rotationInput c && negb (stop c)
     then Slerp (quaternion ship)
            (targetRotation
               (controlSteps c (negate worldDirection) (quaternion ship)
                  (floatEffect now c (position ship)))) 0.1
     else Slerp (quaternion ship)
            (LookAtRotation Vector3_zero (negate worldDirection) worldUp) 0.02).
Proof.
  unfold animateShip; cbn [fst quaternion]. unfold smoothRotation.
  now rewrite controlSteps_needRotationUpdate.
Qed.

(** C6.  In the per-frame advance of a ship that is not stopped, when at
    least one rotation flag (pitchUp, pitchDown, bankLeft, bankRight) is
    set the orientation is slerped toward the target orientation, built
    from the world orientation by the rotations of the held keys, by the
    factor 0.1; when none is set it is slerped toward the level
    orientation (the look-at rotation of the current heading with the
    world up, which has no bank) by the factor 0.02. *)
Theorem rotation_smoothing (now : R) (c : ShipControls)
    (worldDirection : Vector3) (matrixWorld : Matrix4) (ship : Ship)
    (cam : Camera) :
  stop c = false ->
  let direction := negate worldDirection in
  let m := controlSteps c direction (quaternion ship)
             (floatEffect now c (position ship)) in
  quaternion (fst (animateShip now c worldDirection matrixWorld ship cam))
  = (if rotationInput c
     then Slerp (quaternion ship) (targetRotation m) 0.1
     else Slerp (quaternion ship)
            (LookAtRotation Vector3_zero direction worldUp) 0.02)
  /\ (rotationInput c = false ->
      targetRotation m = GetWorldQuaternion (quaternion ship)).
Proof.
  intros Hs. cbv zeta. split.
  - rewrite smoothing_by_flags, Hs, andb_true_r. reflexivity.
  - unfold rotationInput, controlSteps, bankRightStep, bankLeftStep,
      pitchDownStep, pitchUpStep, forwardStep.
    rewrite Hs.
    destruct (pitchUp c), (pitchDown c), (bankLeft c), (bankRight c);
      simpl; intros H; try discriminate; reflexivity.
Qed.

Lemma rotation_smoothing_witness :
  stop WorldMatrix.pitchingControls = false
  /\ quaternion
       (fst (animateShip 0 WorldMatrix.pitchingControls Sample.forwardZ
               Sample.translation Sample.shipAtStart Sample.cameraAtStart))
     = Slerp Identity
         (targetRotation
            (controlSteps WorldMatrix.pitchingControls (negate Sample.forwardZ)
               Identity
               (floatEffect 0 WorldMatrix.pitchingControls
                  (position Sample.shipAtStart)))) 0.1.
Proof.
  split; [reflexivity |].
  exact (proj1 (rotation_smoothing 0 WorldMatrix.pitchingControls Sample.forwardZ
                  Sample.translation Sample.shipAtStart Sample.cameraAtStart
                  eq_refl)).
Defined.

End FlightSpec.

(** ** The exhaust pool: construction, shape, order of respawns *)

Module ExhaustPool.
Import Exhaust ExhaustFacts.

Lemma half_test (i n : nat) :
  Rltb (INR i) (INR n / 2) = (2 * i <? n)%nat.
Proof.
  destruct (2 * i <? n)%nat eqn:E.
  - apply Nat.ltb_lt in E. apply Rltb_true.
    apply lt_INR in E. rewrite mult_INR in E. simpl in E. lra.
  - apply Nat.ltb_ge in E. apply Rltb_false.
    apply le_INR in E. rewrite mult_INR in E. simpl in E. lra.
Qed.

Lemma initParticles_length (random : nat -> R) (config : Config) (n i cursor : nat) :
  List.length (fst (initParticles random config n i cursor)) = n
  /\ snd (initParticles random config n i cursor) = (cursor + 5 * n)%nat.
Proof.
  revert i cursor; induction n as [| n IH]; intros i cursor; simpl.
  - split; [reflexivity | lia].
  - specialize (IH (S i) (cursor + 5)%nat).
    destruct (initParticles random config n (S i) (cursor + 5)) as [ps c'].
    simpl in *. destruct IH as [-> ->]. split; [reflexivity | lia].
Qed.

Lemma initParticles_nth (random : nat -> R) (config : Config) (n i cursor j : nat)
    (p : Particle) :
  nth_error (fst (initParticles random config n i cursor)) j = Some p ->
  position p = Vector3_zero /\ lifetime p = 0 /\ color p = mkColor 0 1 1
  /\ emitterIndex p = (if (2 * (i + j) <? count config)%nat then 0 else 1)%nat
  /\ maxLifetime p
     = random (cursor + 5 * j + 4)%nat * (lifetime_max config - lifetime_min config)
       + lifetime_min config.
Proof.
  revert i cursor j; induction n as [| n IH]; intros i cursor j.
  - destruct j; discriminate.
  - cbn [initParticles].
    specialize (IH (S i) (cursor + 5)%nat).
    destruct (initParticles random config n (S i) (cursor + 5)) as [ps c'].
    destruct j as [| j]; cbn [fst nth_error].
    + intros [= <-].
      cbn [position lifetime color emitterIndex maxLifetime].
      rewrite half_test.
      replace (i + 0)%nat with i by lia.
      replace (cursor + 5 * 0 + 4)%nat with (cursor + 4)%nat by lia. auto.
    + intros H. specialize (IH j H).
      replace (i + S j)%nat with (S i + j)%nat by lia.
      replace (cursor + 5 * S j + 4)%nat with (cursor + 5 + 5 * j + 4)%nat by lia.
      exact IH.
Qed.

(** X1.  [getShipExhaust] builds exactly [count] slots, with the shared
    counter at 0 and 5 draws a slot; every slot starts at the origin with
    age 0 and the colour cyan, and slot j belongs to the left emitter
    (index 0) exactly when 2j < count, so that an odd count gives the left
    emitter one slot more. *)
Theorem getShipExhaust_pool (random : nat -> R) (config : Config) (cursor : nat) :
  let s := fst (getShipExhaust random config cursor) in
  List.length (particles s) = count config
  /\ activeParticles s = 0%nat
  /\ emitterPositions s = (Vector3_zero, Vector3_zero)
  /\ snd (getShipExhaust random config cursor) = (cursor + 5 * count config)%nat
  /\ forall (j : nat) (p : Particle),
       nth_error (particles s) j = Some p ->
       position p = Vector3_zero /\ lifetime p = 0 /\ color p = mkColor 0 1 1
       /\ emitterIndex p = (if (2 * j <? count config)%nat then 0 else 1)%nat.
Proof.
  cbv zeta. unfold getShipExhaust.
  pose proof (initParticles_length random config (count config) 0 cursor) as [Hl Hc].
  pose proof (initParticles_nth random config (count config) 0 cursor) as Hn.
  destruct (initParticles random config (count config) 0 cursor) as [ps c'].
  simpl in *. repeat split; auto.
  all: destruct (Hn j p H) as (? & ? & ? & ? & ?); auto.
Qed.

Lemma Forall2_length_eq {A B : Type} (P : A -> B -> Prop) (l : list A) (l' : list B) :
  Forall2 P l l' -> List.length l = List.length l'.
Proof. induction 1; simpl; congruence. Qed.

(** X2.  [update] keeps the pool in shape: the same number of slots, the
    same emitter anchors, and every slot with its emitter index; a slot
    that is not reset also keeps its maximal age and its velocity. *)
Theorem update_keeps_shape (random : nat -> R) (config : Config)
    (delta shipVelocity : R) (isBoost : bool)
    (backwardDir rightDir upDir : option Vector3) (s : State) (cursor : nat) :
  let s' := fst (update random config delta shipVelocity isBoost
                   backwardDir rightDir upDir s cursor) in
  List.length (particles s') = List.length (particles s)
  /\ emitterPositions s' = emitterPositions s
  /\ Forall2
       (fun p bp =>
          emitterIndex (snd bp) = emitterIndex p
          /\ (fst bp <> Respawned ->
              maxLifetime (snd bp) = maxLifetime p
              /\ velocity (snd bp) = velocity p))
       (particles s)
       (fst (fst (updateRun random config delta shipVelocity isBoost
                    backwardDir rightDir upDir s cursor))).
Proof.
  cbv zeta.
  assert (HF : Forall2
       (fun p bp =>
          emitterIndex (snd bp) = emitterIndex p
          /\ (fst bp <> Respawned ->
              maxLifetime (snd bp) = maxLifetime p
              /\ velocity (snd bp) = velocity p))
       (particles s)
       (fst (fst (updateRun random config delta shipVelocity isBoost
                    backwardDir rightDir upDir s cursor)))).
  { unfold updateRun.
    eapply ExhaustSpec.Forall2_impl; [| apply updateLoop_slots].
    intros p [b p']; simpl. destruct b.
    - intros (_ & a & c & _ & ->). simpl. split; [reflexivity | congruence].
    - intros (_ & ->). auto.
    - intros (_ & ->). simpl. auto. }
  split; [| split; [| exact HF]].
  - rewrite ExhaustSpec.update_particles, length_map.
    symmetry. eapply Forall2_length_eq; exact HF.
  - unfold update.
    now destruct (updateRun random config delta shipVelocity isBoost
                    backwardDir rightDir upDir s cursor) as [[slots a] c].
Qed.

Lemma deadOnly_cons (b : Branch) (l : list Branch) :
  Run.deadOnly (b :: l)
  = match b with Aged => Run.deadOnly l | _ => b :: Run.deadOnly l end.
Proof. now destruct b. Qed.

Section Order.

Variable random : nat -> R.
Variable config : Config.
Variables delta shipVelocity budget : R.
Variables backwardDir rightDir upDir : option Vector3.
Variable emitters : Vector3 * Vector3.

Let branches (ps : list Particle) (active cursor : nat) : list Branch :=
  map fst (fst (fst (updateLoop random config delta shipVelocity budget
                       backwardDir rightDir upDir emitters ps active cursor))).

Lemma branches_cons (p : Particle) (ps : list Particle) (active cursor : nat) :
  branches (p :: ps) active cursor
  = fst (fst (fst (updateParticle random config delta shipVelocity budget
                     backwardDir rightDir upDir emitters p active cursor)))
    :: branches ps
         (snd (fst (updateParticle random config delta shipVelocity budget
                      backwardDir rightDir upDir emitters p active cursor)))
         (snd (updateParticle random config delta shipVelocity budget
                 backwardDir rightDir upDir emitters p active cursor)).
Proof.
  unfold branches; cbn [updateLoop].
  destruct (updateParticle random config delta shipVelocity budget
              backwardDir rightDir upDir emitters p active cursor)
    as [[[b p'] a'] c'].
  cbn [fst snd].
  now destruct (updateLoop random config delta shipVelocity budget
                  backwardDir rightDir upDir emitters ps a' c') as [[rest a''] c''].
Qed.

(** Once the counter has reached the budget, every later dead slot
    waits. *)
Lemma branches_exhausted (ps : list Particle) (active cursor : nat) :
  budget <= INR active ->
  exists m : nat, Run.deadOnly (branches ps active cursor) = repeat Waiting m.
Proof.
  intros Hfull; revert cursor; induction ps as [| p ps IH]; intros cursor.
  - exists 0%nat. reflexivity.
  - rewrite branches_cons.
    destruct (updateParticle_cases random config delta shipVelocity budget
                backwardDir rightDir upDir emitters p active cursor)
      as [(_ & Hroom & E) | [(_ & _ & E) | (_ & E)]]; [lra | |];
      rewrite E; cbn [fst snd]; destruct (IH cursor) as [m Hm].
    + exists (S m). rewrite deadOnly_cons, Hm. reflexivity.
    + exists m. rewrite deadOnly_cons. exact Hm.
Qed.

Lemma branches_first_fit (ps : list Particle) (active cursor : nat) :
  exists k m : nat,
    Run.deadOnly (branches ps active cursor)
    = repeat Respawned k ++ repeat Waiting m.
Proof.
  revert active cursor; induction ps as [| p ps IH]; intros active cursor.
  - exists 0%nat, 0%nat. reflexivity.
  - rewrite branches_cons.
    destruct (updateParticle_cases random config delta shipVelocity budget
                backwardDir rightDir upDir emitters p active cursor)
      as [(_ & Hroom & E) | [(_ & Hfull & E) | (_ & E)]];
      rewrite E; cbn [fst snd].
    + destruct (IH (S active) (cursor + 4)%nat) as (k & m & H).
      exists (S k), m. rewrite deadOnly_cons, H. reflexivity.
    + destruct (branches_exhausted ps active cursor Hfull) as [m H].
      exists 0%nat, (S m). rewrite deadOnly_cons, H. reflexivity.
    + destruct (IH active cursor) as (k & m & H).
      exists k, m. rewrite deadOnly_cons. exact H.
Qed.

End Order.

(** X3.  In one call of [update] the respawns go to the dead slots of
    lowest index: among the dead slots, in index order, a run of reset
    slots comes first and every dead slot after it is left waiting.  The
    length of the run is the number of respawns of the call. *)
Theorem respawns_first_fit (random : nat -> R) (config : Config)
    (delta shipVelocity : R) (isBoost : bool)
    (backwardDir rightDir upDir : option Vector3) (s : State) (cursor : nat) :
  let bs := updateBranches random config delta shipVelocity isBoost
              backwardDir rightDir upDir s cursor in
  exists m : nat,
    Run.deadOnly bs = repeat Respawned (respawnCount bs) ++ repeat Waiting m.
Proof.
  cbv zeta. unfold updateBranches, updateRun.
  destruct (branches_first_fit random config (Math_min delta 0.1) shipVelocity
              (particlesPerEmitter shipVelocity isBoost) backwardDir rightDir upDir
              (emitterPositions s) (particles s) (activeParticles s) cursor)
    as (k & m & H).
  cbv zeta in H.
  set (bs := map fst _) in *.
  exists m.
  assert (Hk : respawnCount bs = k).
  { assert (Hc : forall l, respawnCount l = respawnCount (Run.deadOnly l)).
    { induction l as [| b l IHl]; [reflexivity |].
      rewrite respawnCount_cons, deadOnly_cons.
      destruct b; try rewrite respawnCount_cons; simpl; rewrite IHl; reflexivity. }
    rewrite Hc, H.
    clear. unfold respawnCount. rewrite filter_app, length_app.
    assert (H1 : forall n,
      List.length (filter (Branch_eqb Respawned) (repeat Respawned n)) = n)
      by (induction n; simpl; congruence).
    assert (H2 : forall n,
      List.length (filter (Branch_eqb Respawned) (repeat Waiting n)) = 0%nat)
      by (induction n; simpl; congruence).
    rewrite H1, H2. lia. }
  now rewrite Hk.
Qed.

Lemma particlesPerEmitter_cap (shipVelocity : R) (isBoost : bool) :
  particlesPerEmitter shipVelocity isBoost <= 3.
Proof.
  unfold particlesPerEmitter, Math_min. destruct isBoost.
  - apply Rmin_l.
  - eapply Rle_trans; [apply Rmin_l | lra].
Qed.

Lemma liveCount_respawnCount (ps : list Particle) (slots : list (Branch * Particle)) :
  Forall2 (fun p bp => isLive (snd bp) = true -> fst bp = Respawned) ps slots ->
  (liveCount (map snd slots) <= respawnCount (map fst slots))%nat.
Proof.
  induction 1 as [| p [b p'] ps slots Hp _ IH]; [reflexivity |].
  simpl in *. rewrite ExhaustSpec.liveCount_cons, respawnCount_cons.
  destruct (isLive p') eqn:E; [rewrite (Hp eq_refl); simpl | ]; lia.
Qed.

Lemma clearAllParticles_dead (s : State) :
  Forall (fun p => lifetime p >= maxLifetime p) (particles (clearAllParticles s)).
Proof.
  unfold clearAllParticles; simpl. apply Forall_map, Forall_forall.
  intros p _. simpl. lra.
Qed.

Lemma clear_then_update_bound (random : nat -> R) (config : Config)
    (delta shipVelocity : R) (isBoost : bool)
    (backwardDir rightDir upDir : option Vector3) (s : State) (cursor : nat) :
  let s' := fst (update random config delta shipVelocity isBoost
                   backwardDir rightDir upDir (clearAllParticles s) cursor) in
  liveCount (particles (clearAllParticles s)) = 0%nat
  /\ INR (liveCount (particles s'))
     <= Rmax 0 (particlesPerEmitter shipVelocity isBoost)
  /\ (liveCount (particles s') <= 3)%nat
  /\ (isBoost = false -> (liveCount (particles s') <= 1)%nat).
Proof.
  cbv zeta.
  assert (H0 : liveCount (particles (clearAllParticles s)) = 0%nat).
  { pose proof (clearAllParticles_dead s) as Hd.
    induction Hd as [| p ps Hp _ IH]; [reflexivity |].
    rewrite ExhaustSpec.liveCount_cons, IH.
    destruct (isLive p) eqn:E; [apply ExhaustSpec.isLive_true in E; lra | reflexivity]. }
  assert (Hb : INR (liveCount
                      (particles
                         (fst (update random config delta shipVelocity isBoost
                                 backwardDir rightDir upDir (clearAllParticles s)
                                 cursor))))
               <= Rmax 0 (particlesPerEmitter shipVelocity isBoost)).
  { rewrite ExhaustSpec.update_particles.
    eapply Rle_trans;
      [| apply (ExhaustSpec.respawns_count_bound random config delta shipVelocity
                  isBoost backwardDir rightDir upDir (clearAllParticles s) cursor)].
    apply le_INR. unfold updateBranches.
    apply (liveCount_respawnCount (particles (clearAllParticles s))).
    unfold updateRun.
    eapply ExhaustSpec.Forall2_Forall_impl;
      [| apply clearAllParticles_dead | apply updateLoop_slots].
    intros p [b p'] Hdead; simpl. destruct b; auto.
    - intros (_ & ->) Hlive. apply ExhaustSpec.isLive_true in Hlive. lra.
    - intros (Hlive & _). lra. }
  split; [exact H0 | split; [exact Hb | split]].
  - apply INR_le. eapply Rle_trans; [exact Hb |].
    apply Rmax_lub; [simpl; lra |].
    eapply Rle_trans; [apply particlesPerEmitter_cap | simpl; lra].
  - intros ->. apply INR_le. eapply Rle_trans; [exact Hb |].
    apply Rmax_lub; [simpl; lra |].
    unfold particlesPerEmitter, Math_min. simpl. apply Rmin_l.
Qed.

(** X4.  [clearAllParticles()] leaves no live slot, and the [update] that
    follows revives only the slots it resets: at most max(0, budget) of
    them, and never more than 3 (1 without boost), whatever the size of
    the pool. *)
Theorem clear_then_update_live (random : nat -> R) (config : Config)
    (delta shipVelocity : R) (isBoost : bool)
    (backwardDir rightDir upDir : option Vector3) (s : State) (cursor : nat) :
  let s' := fst (update random config delta shipVelocity isBoost
                   backwardDir rightDir upDir (clearAllParticles s) cursor) in
  liveCount (particles (clearAllParticles s)) = 0%nat
  /\ INR (liveCount (particles s'))
     <= Rmax 0 (particlesPerEmitter shipVelocity isBoost)
  /\ (liveCount (particles s') <= 3)%nat
  /\ (isBoost = false -> (liveCount (particles s') <= 1)%nat).
Proof. apply clear_then_update_bound. Qed.

End ExhaustPool.

(** ** The exhaust pool: sizes, colours, reset and warm start *)

Module ExhaustLook.
Import Exhaust ExhaustFacts.

Lemma sizeFactor_range (lifeRatio : R) :
  0 <= Math_max 0 (sizeMultiplier lifeRatio) <= 1.
Proof.
  unfold Math_max. split; [apply Rmax_l |].
  apply Rmax_lub; [lra |].
  unfold sizeMultiplier, Rltb. destruct (Rlt_dec lifeRatio 0.2); lra.
Qed.

Lemma sizeFactor_spent (lifeRatio : R) :
  1 <= lifeRatio -> Math_max 0 (sizeMultiplier lifeRatio) = 0.
Proof.
  intros H. unfold Math_max. apply Rmax_left.
  unfold sizeMultiplier, Rltb. destruct (Rlt_dec lifeRatio 0.2); lra.
Qed.

Lemma ratio_spent (a m : R) : 0 < m -> a >= m -> 1 <= a / m.
Proof.
  intros Hm Ha. unfold Rdiv.
  apply (Rmult_le_reg_r m); [exact Hm |].
  rewrite Rmult_assoc, Rinv_l by lra. lra.
Qed.

(** X5.  [update] writes the eased size back into the array it reads the
    base size from, so sizes only shrink: a slot of non-negative size
    never comes out larger, a reset keeps the size as it is, and a live
    slot whose age reaches its maximal age (when that is positive) comes
    out with size 0; size 0 then stays 0. *)
Theorem size_only_shrinks (random : nat -> R) (config : Config)
    (delta shipVelocity : R) (isBoost : bool)
    (backwardDir rightDir upDir : option Vector3) (s : State) (cursor : nat) :
  Forall2
    (fun p bp =>
       (0 <= size p -> 0 <= size (snd bp) <= size p)
       /\ (size p = 0 -> size (snd bp) = 0)
       /\ (fst bp = Respawned -> size (snd bp) = size p)
       /\ (fst bp = Aged -> 0 < maxLifetime p ->
           lifetime (snd bp) >= maxLifetime p -> size (snd bp) = 0))
    (particles s)
    (fst (fst (updateRun random config delta shipVelocity isBoost
                 backwardDir rightDir upDir s cursor))).
Proof.
  unfold updateRun.
  eapply ExhaustSpec.Forall2_impl; [| apply updateLoop_slots].
  intros p [b p']; simpl. destruct b.
  - intros (_ & a & c & _ & ->). simpl.
    repeat split; try lra; try discriminate; auto.
  - intros (_ & ->). repeat split; try lra; try discriminate; auto.
  - intros (_ & ->). unfold age; cbn [size lifetime].
    set (r := (lifetime p + Math_min delta 0.1) / maxLifetime p).
    pose proof (sizeFactor_range r) as Hr.
    split; [intros Hs; split | split; [intros Hs | split; [discriminate |]]].
    + apply Rmult_le_pos; lra.
    + rewrite <- (Rmult_1_r (size p)) at 2.
      apply Rmult_le_compat_l; lra.
    + rewrite Hs. ring.
    + intros _ Hm Hdead. unfold r.
      rewrite (sizeFactor_spent _ (ratio_spent _ _ Hm Hdead)). ring.
Qed.

(** The colours [update] can leave: no red, green at most blue, blue
    between 0.2 and 1. *)
Lemma fadeColor_valid (lifeRatio : R) (c : Color) :
  red c = 0 /\ 0 <= green c <= blue c /\ 0.2 <= blue c <= 1 ->
  red (fadeColor lifeRatio c) = 0
  /\ 0 <= green (fadeColor lifeRatio c) <= blue (fadeColor lifeRatio c)
  /\ 0.2 <= blue (fadeColor lifeRatio c) <= 1.
Proof.
  intros Hc. unfold fadeColor.
  destruct (Rgtb lifeRatio 0.5) eqn:E; [| exact Hc].
  apply Rgtb_true in E. simpl. unfold Math_max.
  set (colorRatio := (lifeRatio - 0.5) * 2).
  assert (0 < colorRatio) by (unfold colorRatio; lra).
  repeat split.
  - apply Rmax_l.
  - apply Rmax_lub.
    + eapply Rle_trans; [| apply Rmax_l]. lra.
    + eapply Rle_trans; [| apply Rmax_r]. lra.
  - apply Rmax_l.
  - apply Rmax_lub; lra.
Qed.

(** X6.  The colour of a slot stays in range through [update]: if it had
    no red, green between 0 and blue, and blue between 0.2 and 1 (as cyan
    does), it still has; a reset slot is cyan again, and the colour of a
    live slot only changes once its age is past half its maximal age. *)
Theorem colour_stays_in_range (random : nat -> R) (config : Config)
    (delta shipVelocity : R) (isBoost : bool)
    (backwardDir rightDir upDir : option Vector3) (s : State) (cursor : nat) :
  Forall2
    (fun p bp =>
       (red (color p) = 0 /\ 0 <= green (color p) <= blue (color p)
        /\ 0.2 <= blue (color p) <= 1 ->
        red (color (snd bp)) = 0
        /\ 0 <= green (color (snd bp)) <= blue (color (snd bp))
        /\ 0.2 <= blue (color (snd bp)) <= 1)
       /\ (fst bp = Respawned -> color (snd bp) = mkColor 0 1 1)
       /\ (fst bp = Aged ->
           lifetime (snd bp) / maxLifetime p <= 0.5 -> color (snd bp) = color p))
    (particles s)
    (fst (fst (updateRun random config delta shipVelocity isBoost
                 backwardDir rightDir upDir s cursor))).
Proof.
  unfold updateRun.
  eapply ExhaustSpec.Forall2_impl; [| apply updateLoop_slots].
  intros p [b p']; simpl. destruct b.
  - intros (_ & a & c & _ & ->). simpl.
    repeat split; try lra; try discriminate; auto.
  - intros (_ & ->). repeat split; try discriminate; tauto.
  - intros (_ & ->). unfold age; cbn [color lifetime].
    split; [apply fadeColor_valid | split; [discriminate |]].
    intros _ Hhalf. unfold fadeColor.
    now replace (Rgtb _ 0.5) with false by (symmetry; apply Rgtb_false; exact Hhalf).
Qed.

(** X7.  [clearAllParticles()] makes every slot dead, one second past its
    maximal age, and puts it on the anchor of its emitter, keeping its
    velocity, size, colour, maximal age and emitter; the counter is 0; a
    second call changes nothing more.  After
    [setEmitterPositions(left, right)] the anchors are the new ones. *)
Theorem clearAllParticles_resets (leftPos rightPos : Vector3) (s : State) :
  Forall2
    (fun p p' =>
       lifetime p' = maxLifetime p + 1
       /\ isLive p' = false
       /\ position p' = emitterPos (emitterPositions s) (emitterIndex p)
       /\ velocity p' = velocity p /\ size p' = size p /\ color p' = color p
       /\ maxLifetime p' = maxLifetime p /\ emitterIndex p' = emitterIndex p)
    (particles s) (particles (clearAllParticles s))
  /\ activeParticles (clearAllParticles s) = 0%nat
  /\ clearAllParticles (clearAllParticles s) = clearAllParticles s
  /\ Forall
       (fun p' => position p' = match emitterIndex p' with
                                | O => leftPos
                                | S _ => rightPos
                                end)
       (particles (clearAllParticles (setEmitterPositions leftPos rightPos s))).
Proof.
  split; [| split; [reflexivity | split]].
  - unfold clearAllParticles; simpl.
    induction (particles s) as [| p ps IH]; simpl; constructor; auto.
    simpl. repeat split; auto.
    unfold isLive; simpl. apply negb_false_iff, Rgeb_true. lra.
  - unfold clearAllParticles; simpl. f_equal.
    rewrite map_map. apply map_ext. intros p. reflexivity.
  - unfold clearAllParticles, setEmitterPositions; simpl.
    apply Forall_map, Forall_forall. intros p _. simpl.
    unfold emitterPos. now destruct (emitterIndex p).
Qed.

End ExhaustLook.

(** ** Warm start and respawn direction *)

Module WarmStartSpec.
Import Exhaust.

Lemma initLoop_spec (random : nat -> R) (config : Config)
    (backwardDir rightDir upDir : option Vector3) (emitters : Vector3 * Vector3)
    (n : nat) (ps : list Particle) (cursor : nat) :
  (forall k, 0 <= random k < 1) ->
  let ps' := fst (WarmStart.initLoop random config backwardDir rightDir upDir
                    emitters n ps cursor) in
  List.length ps' = List.length ps
  /\ skipn n ps' = skipn n ps
  /\ Forall2
       (fun p p' =>
          maxLifetime p' = maxLifetime p /\ size p' = size p
          /\ emitterIndex p' = emitterIndex p /\ color p' = mkColor 0 1 1
          /\ (0 <= maxLifetime p -> 0 <= lifetime p' <= 0.7 * maxLifetime p)
          /\ (0 < maxLifetime p -> isLive p' = true))
       (firstn n ps) (firstn n ps').
Proof.
  intros Hr. cbv zeta.
  revert ps cursor; induction n as [| n IH]; intros ps cursor.
  - simpl. repeat split; auto; try constructor.
  - destruct ps as [| p ps]; [simpl; repeat split; auto; try constructor |].
    cbn [WarmStart.initLoop].
    specialize (IH ps (cursor + 7)%nat).
    destruct (WarmStart.initLoop random config backwardDir rightDir upDir
                emitters n ps (cursor + 7)) as [rest c'].
    cbn [fst] in *. destruct IH as (Hl & Hs & HF).
    split; [simpl; congruence | split; [exact Hs |]].
    cbn [firstn]. constructor; [| exact HF].
    pose proof (Hr (cursor + 6)%nat) as Hw.
    unfold WarmStart.initParticle.
    destruct backwardDir, rightDir, upDir;
      cbn [maxLifetime size emitterIndex color lifetime];
      (split; [reflexivity | split; [reflexivity | split; [reflexivity |
        split; [reflexivity | split]]]];
       [ intros Hm; split;
         [ apply Rmult_le_pos; [apply Rmult_le_pos |]; lra | nra ]
       | intros Hm; apply ExhaustSpec.isLive_true;
         cbn [maxLifetime lifetime]; nra ]).
Qed.

(** X8.  [init] touches the first min(20, count) slots and no other.  For
    draws in [0, 1), each of those slots keeps its maximal age, size and
    emitter, turns cyan and gets an age between 0 and 0.7 times its
    maximal age, so that it is live whenever its maximal age is positive;
    the anchors and the counter are as before. *)
Theorem init_warm_start (random : nat -> R) (config : Config)
    (backwardDir rightDir upDir : option Vector3) (s : State) (cursor : nat) :
  (forall k, 0 <= random k < 1) ->
  let s' := fst (WarmStart.init random config backwardDir rightDir upDir s cursor) in
  let n := Nat.min 20 (count config) in
  List.length (particles s') = List.length (particles s)
  /\ skipn n (particles s') = skipn n (particles s)
  /\ emitterPositions s' = emitterPositions s
  /\ activeParticles s' = activeParticles s
  /\ Forall2
       (fun p p' =>
          maxLifetime p' = maxLifetime p /\ size p' = size p
          /\ emitterIndex p' = emitterIndex p /\ color p' = mkColor 0 1 1
          /\ (0 <= maxLifetime p -> 0 <= lifetime p' <= 0.7 * maxLifetime p)
          /\ (0 < maxLifetime p -> isLive p' = true))
       (firstn n (particles s)) (firstn n (particles s')).
Proof.
  intros Hr. cbv zeta. unfold WarmStart.init.
  pose proof (initLoop_spec random config backwardDir rightDir upDir
                (emitterPositions s) (Nat.min 20 (count config)) (particles s)
                cursor Hr) as H.
  cbv zeta in H.
  destruct (WarmStart.initLoop random config backwardDir rightDir upDir
              (emitterPositions s) (Nat.min 20 (count config)) (particles s)
              cursor) as [ps c'].
  cbn [fst particles emitterPositions activeParticles] in *.
  tauto.
Qed.

Lemma init_warm_start_witness :
  (forall k : nat, 0 <= Sample.halves k < 1)
  /\ List.length
       (particles (fst (WarmStart.init Sample.halves Sample.twoSlots
                          None None None Sample.clearedExhaust 0)))
     = List.length (particles Sample.clearedExhaust).
Proof.
  split; [exact EruptionSpec.halves_range |].
  apply (init_warm_start Sample.halves Sample.twoSlots None None None
           Sample.clearedExhaust 0 EruptionSpec.halves_range).
Defined.

(** X9.  A reset slot is thrown backward.  For draws in [0, 1) and a
    non-negative [speed.max], the new velocity has a component of at least
    [speed.min] along the backward direction of an orthonormal basis
    passed to [update], and along +z when no basis is passed; the slot
    sits on its anchor with age 0. *)
Theorem respawn_moves_backward (random : nat -> R) (config : Config)
    (shipVelocity : R) (b r u : Vector3) (emitters : Vector3 * Vector3)
    (p : Particle) (cursor : nat) :
  (forall k, 0 <= random k < 1) ->
  0 <= speed_max config ->
  dot b b = 1 -> dot r b = 0 -> dot u b = 0 ->
  let p' := respawn random config shipVelocity (Some b) (Some r) (Some u)
              emitters p cursor in
  let q' := respawn random config shipVelocity None None None emitters p cursor in
  speed_min config <= dot (velocity p') b
  /\ speed_min config <= vz (velocity q')
  /\ position p' = emitterPos emitters (emitterIndex p)
  /\ position q' = emitterPos emitters (emitterIndex p)
  /\ lifetime p' = 0 /\ lifetime q' = 0.
Proof.
  intros Hr Hs Hbb Hrb Hub. cbv zeta.
  pose proof (Hr (cursor + 2)%nat) as Hw.
  assert (Hf : 0.8 <= Math_max 0.8 shipVelocity) by apply Rmax_l.
  assert (Hback : 0 <= random (cursor + 2)%nat * speed_max config
                       * Math_max 0.8 shipVelocity).
  { apply Rmult_le_pos; [apply Rmult_le_pos |]; lra. }
  unfold respawn; cbn [velocity position lifetime vz].
  repeat split; try lra.
  unfold dot in *; cbn [vx vy vz].
  set (randomBack := random (cursor + 2)%nat * speed_max config
                     * Math_max 0.8 shipVelocity + speed_min config) in *.
  set (randomRight := (random cursor - 0.5) * spread_x config).
  set (randomUp := (random (cursor + 1)%nat - 0.5) * spread_y config).
  replace ((vx b * randomBack + vx r * randomRight + vx u * randomUp) * vx b
           + (vy b * randomBack + vy r * randomRight + vy u * randomUp) * vy b
           + (vz b * randomBack + vz r * randomRight + vz u * randomUp) * vz b)
    with (randomBack * (vx b * vx b + vy b * vy b + vz b * vz b)
          + randomRight * (vx r * vx b + vy r * vy b + vz r * vz b)
          + randomUp * (vx u * vx b + vy u * vy b + vz u * vz b)) by ring.
  rewrite Hbb, Hrb, Hub. unfold randomBack. lra.
Qed.

Lemma respawn_moves_backward_witness :
  speed_min Sample.twoSlots
  <= dot (velocity
            (respawn Sample.halves Sample.twoSlots 0.4
               (Some (mkVector3 0 0 1)) (Some (mkVector3 1 0 0))
               (Some (mkVector3 0 1 0)) (Vector3_zero, Vector3_zero)
               (mkParticle Vector3_zero Vector3_zero 0 (mkColor 0 1 1) 1 1 0) 0))
       (mkVector3 0 0 1).
Proof.
  apply (respawn_moves_backward Sample.halves Sample.twoSlots 0.4
           (mkVector3 0 0 1) (mkVector3 1 0 0) (mkVector3 0 1 0)
           (Vector3_zero, Vector3_zero)
           (mkParticle Vector3_zero Vector3_zero 0 (mkColor 0 1 1) 1 1 0) 0).
  - exact EruptionSpec.halves_range.
  - simpl; lra.
  - unfold dot; simpl; lra.
  - unfold dot; simpl; lra.
  - unfold dot; simpl; lra.
Defined.

End WarmStartSpec.

(** ** The exhaust tick *)

Module TickSpec.
Import Tick.

Lemma lengthSq_nonneg (v : Vector3) : 0 <= lengthSq v.
Proof. unfold lengthSq. nra. Qed.

Lemma angleTo_self (d : Vector3) : 0 < lengthSq d -> angleTo d d = 0.
Proof.
  intros Hd. unfold angleTo.
  rewrite sqrt_square by lra.
  destruct (Req_dec_T (lengthSq d) 0) as [E | _]; [lra |].
  replace (dot d d / lengthSq d) with 1
    by (unfold dot, lengthSq in *; field; lra).
  unfold clamp, Math_max, Math_min.
  rewrite Rmin_left by lra. rewrite Rmax_right by lra.
  apply acos_1.
Qed.

Lemma angleTo_zero (d : Vector3) : lengthSq d = 0 -> angleTo d d = PI / 2.
Proof.
  intros Hd. unfold angleTo. rewrite Hd, Rmult_0_l, sqrt_0.
  destruct (Req_dec_T 0 0) as [_ | E]; [reflexivity | lra].
Qed.

(** X10.  The pool is not cleared on the first tick, nor on a tick whose
    heading and boost flag are those of the tick before, provided the
    heading is not the zero vector; a changed boost flag clears it; and a
    zero heading clears it on every tick, since [angleTo] then answers a
    quarter turn. *)
Theorem mustClear_cases (d d' : Vector3) (boost : bool) :
  mustClear d boost None = false
  /\ (0 < lengthSq d -> mustClear d boost (Some (d, boost)) = false)
  /\ mustClear d boost (Some (d', negb boost)) = true
  /\ (lengthSq d = 0 -> mustClear d boost (Some (d, boost)) = true).
Proof.
  split; [reflexivity | split; [| split]].
  - intros Hd. unfold mustClear. rewrite (angleTo_self d Hd).
    replace (Rgtb 0 0.174) with false by (symmetry; apply Rgtb_false; lra).
    now destruct boost.
  - unfold mustClear. destruct boost; simpl; apply orb_true_r.
  - intros Hd. unfold mustClear. rewrite (angleTo_zero d Hd).
    replace (Rgtb (PI / 2) 0.174) with true; [reflexivity |].
    symmetry; apply Rgtb_true. pose proof PI2_1. lra.
Qed.

Lemma tickParticles_stopped (random : nat -> R) (config : Exhaust.Config)
    (c : Flight.ShipControls) (loaded : bool) (shipPosition worldDirection : Vector3)
    (v : ExhaustView) (cursor : nat) :
  Flight.stop c = true ->
  tickParticles random config c loaded shipPosition worldDirection v cursor
  = (mkExhaustView (exhaust v) false (particlesPosition v) (initialized v) (last v),
     cursor).
Proof. intros H. unfold tickParticles. now rewrite H. Qed.

(** X11.  While the stop flag is set, ticks do nothing but hide the
    exhaust: after any number of them the pool, the anchors, the
    position of the system, the history and the draw index are what they
    were, so the slots neither age nor respawn during a stop. *)
Theorem stopped_ticks_freeze (random : nat -> R) (config : Exhaust.Config)
    (frames : list (Flight.ShipControls * bool * Vector3 * Vector3))
    (v : ExhaustView) (cursor : nat) :
  Forall (fun f => Flight.stop (fst (fst (fst f))) = true) frames ->
  let r := ticks random config frames v cursor in
  exhaust (fst r) = exhaust v
  /\ particlesPosition (fst r) = particlesPosition v
  /\ initialized (fst r) = initialized v
  /\ last (fst r) = last v
  /\ snd r = cursor
  /\ (frames <> [] -> visible (fst r) = false).
Proof.
  intros HF; revert v; induction HF as [| [[[c loaded] sp] wd] frames Hc _ IH];
    intros v; cbv zeta.
  - simpl. repeat split; auto. intros H; now elim H.
  - cbn [ticks]. simpl in Hc.
    rewrite (tickParticles_stopped random config c loaded sp wd v cursor Hc).
    specialize (IH (mkExhaustView (exhaust v) false (particlesPosition v)
                      (initialized v) (last v))).
    cbv zeta in IH. cbn [exhaust particlesPosition initialized last] in IH.
    destruct IH as (H1 & H2 & H3 & H4 & H5 & H6).
    repeat split; auto. intros _.
    destruct frames as [| f frames']; [reflexivity | apply H6; discriminate].
Qed.

Lemma stopped_ticks_freeze_witness :
  Forall (fun f => Flight.stop (fst (fst (fst f))) = true)
    [(Sample.stoppedControls, true, mkVector3 400 0 60, Sample.forwardZ)]
  /\ exhaust
       (fst (ticks Sample.halves Sample.twoSlots
               [(Sample.stoppedControls, true, mkVector3 400 0 60, Sample.forwardZ)]
               Run.boostedView 0))
     = Sample.clearedExhaust.
Proof.
  assert (H : Forall (fun f => Flight.stop (fst (fst (fst f))) = true)
                [(Sample.stoppedControls, true, mkVector3 400 0 60,
                  Sample.forwardZ)])
    by (repeat constructor).
  split; [exact H |].
  apply (stopped_ticks_freeze Sample.halves Sample.twoSlots _ Run.boostedView 0 H).
Defined.

(** X12.  A tick of a loaded, running, initialised ship whose boost flag
    differs from the one the last tick saw clears the pool before it
    updates it: at most 3 slots are live after the tick, whatever was
    live before; the system is visible and sits at the ship, and the
    history holds the new heading and flag. *)
Theorem tick_after_boost_change (random : nat -> R) (config : Exhaust.Config)
    (c : Flight.ShipControls) (shipPosition worldDirection lastDir : Vector3)
    (v : ExhaustView) (cursor : nat) :
  Flight.stop c = false ->
  initialized v = true ->
  last v = Some (lastDir, negb (Flight.boost c)) ->
  let v' := fst (tickParticles random config c true shipPosition worldDirection
                   v cursor) in
  (Exhaust.liveCount (Exhaust.particles (exhaust v')) <= 3)%nat
  /\ visible v' = true
  /\ particlesPosition v' = shipPosition
  /\ last v' = Some (negate (negate worldDirection), Flight.boost c).
Proof.
  intros Hs Hi Hl. cbv zeta. unfold tickParticles.
  rewrite Hs, Hi, Hl. cbn [negb].
  destruct (mustClear_cases (negate (negate worldDirection)) lastDir
              (Flight.boost c)) as (_ & _ & Hclear & _).
  rewrite Hclear.
  match goal with
  | |- context [Exhaust.update ?r ?cf ?d ?sv ?b ?x ?y ?z (Exhaust.clearAllParticles ?s) ?k] =>
      pose proof (ExhaustPool.clear_then_update_bound r cf d sv b x y z s k) as H;
      destruct (Exhaust.update r cf d sv b x y z (Exhaust.clearAllParticles s) k)
        as [s4 c4]
  end.
  cbv zeta in H. cbn [fst exhaust visible particlesPosition last] in *.
  repeat split; tauto.
Qed.

Lemma tick_after_boost_change_witness :
  Flight.stop Flight.initialControls = false
  /\ (Exhaust.liveCount
        (Exhaust.particles
           (exhaust
              (fst (tickParticles Sample.halves Sample.twoSlots
                      Flight.initialControls true (mkVector3 400 0 60)
                      Sample.forwardZ Run.boostedView 0)))) <= 3)%nat.
Proof.
  split; [reflexivity |].
  apply (tick_after_boost_change Sample.halves Sample.twoSlots
           Flight.initialControls (mkVector3 400 0 60) Sample.forwardZ
           (mkVector3 0 0 (-1)) Run.boostedView 0);
    reflexivity.
Defined.

End TickSpec.

(** ** Key events *)

Module KeysSpec.
Import Flight Run.

Lemma eqb_other (code key : string) : code <> key -> String.eqb code key = false.
Proof. apply String.eqb_neq. Qed.

(** X13.  A key whose code is none of KeyW, KeyS, KeyA, KeyD, ShiftLeft,
    ShiftRight and Space changes nothing, going down or up. *)
Theorem other_keys_ignored (code : string) (w : World) :
  code <> "KeyW"%string -> code <> "KeyS"%string -> code <> "KeyA"%string ->
  code <> "KeyD"%string -> code <> "ShiftLeft"%string ->
  code <> "ShiftRight"%string -> code <> "Space"%string ->
  handleKeyDown code w = w /\ handleKeyUp code w = w.
Proof.
  intros H1 H2 H3 H4 H5 H6 H7. unfold handleKeyDown, handleKeyUp.
  rewrite !eqb_other by assumption. auto.
Qed.

Lemma other_keys_ignored_witness :
  handleKeyDown "KeyQ" (mkWorld initialControls Sample.clearedExhaust)
  = mkWorld initialControls Sample.clearedExhaust.
Proof.
  apply (other_keys_ignored "KeyQ" (mkWorld initialControls Sample.clearedExhaust));
    discriminate.
Defined.

Lemma handleEvent_controls (ev : KeyEvent) (w : World) :
  baseSpeed (shipControls (handleEvent ev w)) = baseSpeed (shipControls w)
  /\ boostSpeed (shipControls (handleEvent ev w)) = boostSpeed (shipControls w)
  /\ maxBankAngle (shipControls (handleEvent ev w)) = maxBankAngle (shipControls w)
  /\ (speed (shipControls w)
      = (if boost (shipControls w) then boostSpeed (shipControls w)
         else baseSpeed (shipControls w)) ->
      speed (shipControls (handleEvent ev w))
      = (if boost (shipControls (handleEvent ev w))
         then boostSpeed (shipControls (handleEvent ev w))
         else baseSpeed (shipControls (handleEvent ev w))))
  /\ List.length (Exhaust.particles (shipExhaust (handleEvent ev w)))
     = List.length (Exhaust.particles (shipExhaust w)).
Proof.
  destruct ev as [code | code]; cbn [handleEvent];
    unfold handleKeyDown, handleKeyUp, onControls;
    repeat match goal with
    | |- context [if ?b then _ else _] =>
        match b with
        | context [String.eqb] => destruct b
        end
    end;
    cbn; repeat split; auto; try apply length_map.
Qed.

(** X14.  Through any run of key events the base speed, the boost speed
    and the maximal bank angle never change, the pool keeps its number of
    slots, and the speed keeps agreeing with the boost flag (the boost
    speed while it is set, the base speed otherwise) if it did at the
    start, as it does when the page loads. *)
Theorem speed_follows_boost (evs : list KeyEvent) (w : World) :
  let w' := handleEvents evs w in
  baseSpeed (shipControls w') = baseSpeed (shipControls w)
  /\ boostSpeed (shipControls w') = boostSpeed (shipControls w)
  /\ maxBankAngle (shipControls w') = maxBankAngle (shipControls w)
  /\ List.length (Exhaust.particles (shipExhaust w'))
     = List.length (Exhaust.particles (shipExhaust w))
  /\ (speed (shipControls w)
      = (if boost (shipControls w) then boostSpeed (shipControls w)
         else baseSpeed (shipControls w)) ->
      speed (shipControls w')
      = (if boost (shipControls w') then boostSpeed (shipControls w')
         else baseSpeed (shipControls w')))
  /\ speed initialControls
     = (if boost initialControls then boostSpeed initialControls
        else baseSpeed initialControls).
Proof.
  cbv zeta. split; [| split; [| split; [| split; [| split; [| reflexivity]]]]];
    revert w; unfold handleEvents;
    induction evs as [| ev evs IH]; intros w; cbn [fold_left]; auto;
    try (rewrite IH; apply handleEvent_controls).
  intros H. apply IH. now apply handleEvent_controls.
Qed.

Lemma cleared_liveCount (s : Exhaust.State) :
  Exhaust.liveCount (Exhaust.particles (Exhaust.clearAllParticles s)) = 0%nat.
Proof.
  exact (proj1 (ExhaustPool.clear_then_update_bound Sample.halves Sample.twoSlots
                  0 0 false None None None s 0)).
Qed.

(** X15.  The space bar, going down or going up, leaves no live slot in
    the exhaust pool and sets, respectively clears, the stop flag; every
    other key leaves the exhaust system as it is. *)
Theorem space_clears_exhaust (w : World) :
  Exhaust.liveCount (Exhaust.particles (shipExhaust (handleKeyDown "Space" w)))
  = 0%nat
  /\ Exhaust.liveCount (Exhaust.particles (shipExhaust (handleKeyUp "Space" w)))
     = 0%nat
  /\ stop (shipControls (handleKeyDown "Space" w)) = true
  /\ stop (shipControls (handleKeyUp "Space" w)) = false
  /\ forall code : string,
       code <> "Space"%string ->
       shipExhaust (handleKeyDown code w) = shipExhaust w
       /\ shipExhaust (handleKeyUp code w) = shipExhaust w.
Proof.
  split; [apply cleared_liveCount | split; [apply cleared_liveCount |]].
  split; [reflexivity | split; [reflexivity |]].
  intros code Hc. unfold handleKeyDown, handleKeyUp, onControls.
  rewrite (eqb_other code "Space" Hc).
  repeat match goal with
  | |- context [if ?b then _ else _] => destruct b
  end; auto.
Qed.

(** X16.  Either shift key starts the boost and either ends it: the speed
    is the boost speed after a shift key goes down and the base speed after
    one goes up, so with both shift keys held the release of one ends the
    boost while the other is still down. *)
Theorem boost_round_trip (w : World) :
  let c := shipControls w in
  let down k := shipControls (handleKeyDown k w) in
  let released :=
    shipControls
      (handleEvents
         [KeyDown "ShiftLeft"; KeyDown "ShiftRight"; KeyUp "ShiftLeft"] w) in
  boost (down "ShiftLeft"%string) = true
  /\ speed (down "ShiftLeft"%string) = boostSpeed c
  /\ boost (down "ShiftRight"%string) = true
  /\ speed (down "ShiftRight"%string) = boostSpeed c
  /\ speed (shipControls (handleKeyUp "ShiftLeft" (handleKeyDown "ShiftLeft" w)))
     = baseSpeed c
  /\ boost released = false
  /\ speed released = baseSpeed c
  /\ (pitchUp released, pitchDown released, bankLeft released, bankRight released,
      stop released)
     = (pitchUp c, pitchDown c, bankLeft c, bankRight c, stop c).
Proof. cbv zeta. repeat split. Qed.

End KeysSpec.

(** ** The ship frame: where a frame puts the ship *)

Module FrameSpec.
Import Flight Run.

Lemma length_scaled (a : R) (v : Vector3) :
  length (mkVector3 (a * vx v) (a * vy v) (a * vz v)) = Rabs a * length v.
Proof.
  unfold length; cbn [vx vy vz].
  replace (a * vx v * (a * vx v) + a * vy v * (a * vy v) + a * vz v * (a * vz v))
    with (Rsqr a * (vx v * vx v + vy v * vy v + vz v * vz v))
    by (unfold Rsqr; ring).
  rewrite sqrt_mult; [| apply Rle_0_sqr | nra].
  now rewrite sqrt_Rsqr_abs.
Qed.

Lemma length_nonneg (v : Vector3) : 0 <= length v.
Proof. apply sqrt_pos. Qed.

(** A vector that is not of length 0 is normalised to length 1. *)
Lemma normalize_unit (v : Vector3) : length v <> 0 -> length (normalize v) = 1.
Proof.
  intros Hv. unfold normalize, divideScalar.
  destruct (Req_dec_T (length v) 0) as [E | _]; [contradiction |].
  replace (mkVector3 (vx v * (1 / length v)) (vy v * (1 / length v))
             (vz v * (1 / length v)))
    with (mkVector3 (1 / length v * vx v) (1 / length v * vy v)
            (1 / length v * vz v))
    by (f_equal; ring).
  rewrite length_scaled.
  pose proof (length_nonneg v) as Hp.
  rewrite Rabs_right.
  - field. exact Hv.
  - apply Rle_ge. apply Rlt_le. apply Rdiv_lt_0_compat; lra.
Qed.

Lemma controlSteps_position (c : ShipControls) (direction : Vector3)
    (q : Quaternion) (p : Vector3) :
  let right := normalize (crossVectors direction worldUp) in
  let go := flag (negb (stop c)) in
  let side := flag (bankLeft c) - flag (bankRight c) in
  shipPosition (controlSteps c direction q p)
  = mkVector3
      (vx p + go * (vx direction * speed c + vx right * (speed c * 0.05) * side))
      (vy p + go * (vy direction * speed c + vy right * (speed c * 0.05) * side))
      (vz p + go * (vz direction * speed c + vz right * (speed c * 0.05) * side)).
Proof.
  cbv zeta. destruct p as [x y z].
  unfold controlSteps.
  generalize (normalize (crossVectors direction worldUp)); intros right.
  unfold bankRightStep, bankLeftStep, pitchDownStep, pitchUpStep,
    forwardStep, flag.
  destruct (stop c), (pitchUp c), (pitchDown c), (bankLeft c), (bankRight c);
    unfold addScaledVector;
    cbn [negb andb shipPosition targetRotation needRotationUpdate vx vy vz];
    apply OrbitFacts.vector3_eq; nra.
Qed.

(** The sideways axis is horizontal. *)
Lemma rightDirection_level (direction : Vector3) :
  vy (normalize (crossVectors direction worldUp)) = 0.
Proof. unfold normalize, divideScalar, crossVectors, worldUp; simpl. ring. Qed.

(** X17.  Where one frame puts the ship, for every combination of flags:
    at the floated position plus, unless the stop flag is set, [speed]
    along the heading and 0.05 * [speed] along the sideways axis, to the
    one side for bankLeft and to the other for bankRight, the pitch flags
    adding nothing.  With both bank flags set the two sidesteps cancel. *)
Theorem frame_position (now : R) (c : ShipControls) (worldDirection : Vector3)
    (matrixWorld : Matrix4) (ship : Ship) (cam : Camera) :
  let direction := negate worldDirection in
  let right := normalize (crossVectors direction worldUp) in
  let p := floatEffect now c (position ship) in
  let go := flag (negb (stop c)) in
  let side := flag (bankLeft c) - flag (bankRight c) in
  position (fst (animateShip now c worldDirection matrixWorld ship cam))
  = mkVector3
      (vx p + go * (vx direction * speed c + vx right * (speed c * 0.05) * side))
      (vy p + go * (vy direction * speed c + vy right * (speed c * 0.05) * side))
      (vz p + go * (vz direction * speed c + vz right * (speed c * 0.05) * side))
  /\ (bankLeft c = bankRight c -> side = 0).
Proof.
  cbv zeta. split.
  - unfold animateShip; cbn [fst position]. apply controlSteps_position.
  - intros ->. lra.
Qed.

(** X18.  The ship cannot climb.  Every frame assigns [position.y] from
    the float effect before it moves the ship, and the sideways axis is
    horizontal, so after any frame the height of the ship is the float
    value (within 2 of zero) plus at most one step of [speed] times the
    vertical part of the heading, wherever the ship was before. *)
Theorem ship_height_bounded (now : R) (c : ShipControls) (worldDirection : Vector3)
    (matrixWorld : Matrix4) (ship : Ship) (cam : Camera) :
  let direction := negate worldDirection in
  let y' := vy (position (fst (animateShip now c worldDirection matrixWorld
                                 ship cam))) in
  y' = sin (now * 0.001) * (if pitchUp c || pitchDown c then 0 else 2)
       + flag (negb (stop c)) * (vy direction * speed c)
  /\ Rabs y' <= 2 + Rabs (vy direction * speed c).
Proof.
  cbv zeta.
  assert (Hy : vy (position (fst (animateShip now c worldDirection matrixWorld
                                    ship cam)))
               = sin (now * 0.001) * (if pitchUp c || pitchDown c then 0 else 2)
                 + flag (negb (stop c)) * (vy (negate worldDirection) * speed c)).
  { unfold animateShip; cbn [fst position].
    rewrite controlSteps_position. cbn [vy].
    rewrite rightDirection_level. unfold floatEffect; cbn [vy]. ring. }
  split; [exact Hy |]. rewrite Hy.
  pose proof (SIN_bound (now * 0.001)) as Hs.
  set (step := vy (negate worldDirection) * speed c).
  eapply Rle_trans; [apply Rabs_triang |].
  apply Rplus_le_compat.
  - destruct (pitchUp c || pitchDown c).
    + rewrite Rmult_0_r, Rabs_R0. lra.
    + apply Rabs_le. lra.
  - unfold flag. destruct (negb (stop c)).
    + rewrite Rmult_1_l. lra.
    + rewrite Rmult_0_l, Rabs_R0. apply Rabs_pos.
Qed.

(** X19.  The sideways axis of the frame is horizontal and at right
    angles to the heading.  It has length 1 unless the heading is
    vertical (no x and no z part); then it is the zero vector, and the
    bank keys do not move the ship at all. *)
Theorem sideways_axis (direction : Vector3) :
  let right := normalize (crossVectors direction worldUp) in
  vy right = 0
  /\ dot right direction = 0
  /\ (length (crossVectors direction worldUp) <> 0 -> length right = 1)
  /\ (vx direction = 0 -> vz direction = 0 -> right = Vector3_zero).
Proof.
  cbv zeta. split; [apply rightDirection_level | split; [| split]].
  - unfold dot, normalize, divideScalar, crossVectors, worldUp; simpl. ring.
  - apply normalize_unit.
  - intros Hx Hz.
    unfold normalize, divideScalar, crossVectors, worldUp, Vector3_zero; simpl.
    rewrite Hx, Hz. apply OrbitFacts.vector3_eq; ring.
Qed.

Lemma boostedFollow_offset (n : nat) (matrixWorld : Matrix4) (shipPos : Vector3)
    (cam : Camera) :
  let target := applyMatrix4 cameraOffset matrixWorld in
  let pos := cameraPosition (boostedFollow n matrixWorld shipPos cam) in
  vx target - vx pos = 0.95 ^ n * (vx target - vx (cameraPosition cam))
  /\ vy target - vy pos = 0.95 ^ n * (vy target - vy (cameraPosition cam))
  /\ vz target - vz pos = 0.95 ^ n * (vz target - vz (cameraPosition cam)).
Proof.
  cbv zeta. induction n as [| n IH].
  - simpl. lra.
  - cbn [boostedFollow].
    set (prev := boostedFollow n matrixWorld shipPos cam) in *.
    unfold cameraFollow; cbn [cameraPosition lerp vx vy vz pow].
    destruct IH as (Hx & Hy & Hz).
    rewrite !Rmult_assoc, <- Hx, <- Hy, <- Hz. lra.
Qed.

(** X20.  Under boost the camera closes in on its target geometrically:
    after n camera steps with the ship at rest, 0.95^n of the starting
    offset is left on each axis, so the camera never overshoots and never
    quite arrives; one step without boost then lands it on the target. *)
Theorem boosted_camera_converges (n : nat) (matrixWorld : Matrix4)
    (shipPos : Vector3) (cam : Camera) :
  let target := applyMatrix4 cameraOffset matrixWorld in
  let cam' := boostedFollow n matrixWorld shipPos cam in
  vx target - vx (cameraPosition cam')
  = 0.95 ^ n * (vx target - vx (cameraPosition cam))
  /\ vy target - vy (cameraPosition cam')
     = 0.95 ^ n * (vy target - vy (cameraPosition cam))
  /\ vz target - vz (cameraPosition cam')
     = 0.95 ^ n * (vz target - vz (cameraPosition cam))
  /\ 0 < 0.95 ^ n <= 1
  /\ cameraPosition (cameraFollow false matrixWorld shipPos cam') = target.
Proof.
  cbv zeta.
  destruct (boostedFollow_offset n matrixWorld shipPos cam) as (Hx & Hy & Hz).
  repeat split; auto.
  - apply pow_lt. lra.
  - rewrite <- (pow1 n). apply pow_incr. lra.
Qed.

End FrameSpec.

(** ** Lights of the gas giants, frame clock, orbit periods *)

Module SceneSpec.
Import Lights.

Lemma along_line (pos : Vector3) (k : R) :
  length pos <> 0 ->
  addScaledVector pos (normalize (sub (mkVector3 0 0 0) pos)) k
  = mkVector3 ((1 - k / length pos) * vx pos) ((1 - k / length pos) * vy pos)
      ((1 - k / length pos) * vz pos).
Proof.
  intros Hp.
  assert (Hneg : length (sub (mkVector3 0 0 0) pos) = length pos).
  { unfold length, sub; cbn [vx vy vz]. f_equal. ring. }
  unfold normalize. rewrite Hneg.
  destruct (Req_dec_T (length pos) 0) as [E | _]; [contradiction |].
  unfold addScaledVector, divideScalar, sub; cbn [vx vy vz].
  apply OrbitFacts.vector3_eq; field; exact Hp.
Qed.

(** X21.  For a planet away from the origin, [updateGasGiantLights] puts
    its point light on the line from the planet to the sun, 1.1 planet
    radii from the planet's centre on the sun's side, and its spotlight
    on the same line 3000 from the planet's centre on the side away from
    the sun, that is 3000 farther from the sun than the planet is. *)
Theorem gas_giant_lights (pos : Vector3) (ratio : R) :
  length pos <> 0 ->
  0 <= ratio ->
  EARTH_RADIUS * ratio * 1.1 <= length pos ->
  let light := fst (lightPositions pos ratio) in
  let spot := snd (lightPositions pos ratio) in
  length (sub light pos) = EARTH_RADIUS * ratio * 1.1
  /\ length light = length pos - EARTH_RADIUS * ratio * 1.1
  /\ length (sub spot pos) = 3000
  /\ length spot = length pos + 3000.
Proof.
  intros Hp Hr Hfar. cbv zeta. unfold lightPositions; cbn [fst snd].
  rewrite !along_line by exact Hp.
  pose proof (FrameSpec.length_nonneg pos) as Hn.
  assert (HL : 0 < length pos) by lra.
  set (L := length pos) in *.
  set (k := EARTH_RADIUS * ratio * 1.1) in *.
  assert (Hk : 0 <= k) by (unfold k, EARTH_RADIUS; nra).
  assert (Hkl : 0 <= k / L) by (apply Rmult_le_pos; [lra | left; now apply Rinv_0_lt_compat]).
  assert (Hk1 : k / L <= 1).
  { apply (Rmult_le_reg_r L); [exact HL |].
    unfold Rdiv. rewrite Rmult_assoc, Rinv_l by lra. lra. }
  assert (H3 : 0 < 3000 / L) by (apply Rdiv_lt_0_compat; lra).
  assert (Hsub : forall a : R,
    sub (mkVector3 ((1 - a) * vx pos) ((1 - a) * vy pos) ((1 - a) * vz pos)) pos
    = mkVector3 (- a * vx pos) (- a * vy pos) (- a * vz pos)).
  { intros a. unfold sub; cbn [vx vy vz]. apply OrbitFacts.vector3_eq; ring. }
  repeat split.
  - rewrite Hsub, FrameSpec.length_scaled. fold L.
    rewrite Rabs_Ropp, Rabs_right by lra. unfold Rdiv.
    rewrite Rmult_assoc, Rinv_l by lra. ring.
  - rewrite FrameSpec.length_scaled. fold L.
    rewrite Rabs_right by lra. unfold Rdiv at 1.
    field. lra.
  - replace (1 - -3000 / L) with (1 - - (3000 / L)) by (field; lra).
    rewrite Hsub, FrameSpec.length_scaled. fold L.
    rewrite Ropp_involutive, Rabs_right by lra. field. lra.
  - rewrite FrameSpec.length_scaled. fold L.
    rewrite Rabs_right by (apply Rle_ge; replace (1 - -3000 / L) with (1 + 3000 / L) by (field; lra); lra).
    field. lra.
Qed.

Lemma gas_giant_lights_witness :
  length (snd (lightPositions (mkVector3 2080 0 0) JUPITER_RADIUS_RATIO))
  = length (mkVector3 2080 0 0) + 3000.
Proof.
  assert (H : length (mkVector3 2080 0 0) = 2080).
  { unfold length; cbn [vx vy vz].
    replace (2080 * 2080 + 0 * 0 + 0 * 0) with (2080 * 2080) by ring.
    apply sqrt_square. lra. }
  apply (gas_giant_lights (mkVector3 2080 0 0) JUPITER_RADIUS_RATIO).
  - rewrite H. lra.
  - unfold JUPITER_RADIUS_RATIO. lra.
  - rewrite H. unfold EARTH_RADIUS, JUPITER_RADIUS_RATIO. lra.
Defined.

Lemma frames_snoc (ts : list R) (t : R) (s : Clock.State) :
  Clock.frames (ts ++ [t]) s = Clock.animate t (Clock.frames ts s).
Proof. revert s; induction ts as [| t' ts IH]; intros s; simpl; auto. Qed.

(** X22.  The deltas of the frames telescope: after any run of frames the
    shader time has grown by the last timestamp minus the [lastTime] the
    run started with, in seconds, whatever the timestamps in between, and
    [lastTime] is the last timestamp. *)
Theorem frame_deltas_telescope (ts : list R) (t : R) (s : Clock.State) :
  let s' := Clock.frames (ts ++ [t]) s in
  Clock.lastTime s' = t
  /\ Clock.time s' = Clock.time s + (t - Clock.lastTime s) / 1000.
Proof.
  cbv zeta. revert t s; induction ts as [| t' ts IH]; intros t s.
  - simpl. unfold Clock.frameDelta. split; [reflexivity | lra].
  - change ((t' :: ts) ++ [t]) with (t' :: (ts ++ [t])).
    cbn [Clock.frames].
    destruct (IH t (Clock.animate t' s)) as [H1 H2].
    split; [exact H1 |]. rewrite H2.
    unfold Clock.animate, Clock.frameDelta; cbn [Clock.time Clock.lastTime]. lra.
Qed.

Lemma cos_turn (x : R) : cos (x + 2 * PI) = cos x.
Proof.
  pose proof (cos_period x 1) as H. simpl in H.
  rewrite Rmult_1_r in H. exact H.
Qed.

Lemma sin_turn (x : R) : sin (x + 2 * PI) = sin x.
Proof.
  pose proof (sin_period x 1) as H. simpl in H.
  rewrite Rmult_1_r in H. exact H.
Qed.

Lemma angularSpeedConst_pos (b : Orbit.Body) : 0 < Orbit.angularSpeedConst b.
Proof. destruct b; simpl; lra. Qed.

(** X23.  Every orbit is periodic in [Date.now()]: a body is back where it
    was after 2*pi / angularSpeedConst milliseconds (for the earth
    2*pi / 0.0001), whatever its position was before the frame in x and
    z. *)
Theorem orbit_periodic (b : Orbit.Body) (now : R) (p p' : Vector3) :
  vy p = vy p' ->
  Orbit.animateOrbit b (now + 2 * PI / Orbit.angularSpeedConst b) p
  = Orbit.animateOrbit b now p'.
Proof.
  intros Hy. pose proof (angularSpeedConst_pos b) as Hk.
  assert (Ha : Orbit.orbitAngle b (now + 2 * PI / Orbit.angularSpeedConst b)
               = Orbit.orbitAngle b now + 2 * PI).
  { unfold Orbit.orbitAngle. field. lra. }
  unfold Orbit.animateOrbit. rewrite Hy. f_equal.
  - unfold Orbit.orbitX. cbv zeta. rewrite Ha, cos_turn. reflexivity.
  - unfold Orbit.orbitZ. cbv zeta. rewrite Ha, sin_turn. reflexivity.
Qed.

Lemma orbit_periodic_witness :
  Orbit.animateOrbit Orbit.Earth
    (0 + 2 * PI / Orbit.angularSpeedConst Orbit.Earth)
    (Orbit.initialPosition Orbit.Earth)
  = Orbit.animateOrbit Orbit.Earth 0 (Orbit.initialPosition Orbit.Earth).
Proof.
  apply (orbit_periodic Orbit.Earth 0 (Orbit.initialPosition Orbit.Earth)
           (Orbit.initialPosition Orbit.Earth)).
  reflexivity.
Defined.

(** X24.  Mercury never leaves the inside of the sun: at every time its
    system is 52 from the centre of the scene, while the sun mesh has
    radius 150 = [SUN_RADIUS]. *)
Theorem mercury_inside_sun (now : R) (p : Vector3) :
  vy p = 0 ->
  length (Orbit.animateOrbit Orbit.Mercury now p) = 52
  /\ length (Orbit.animateOrbit Orbit.Mercury now p) < EruptionInit.SUN_RADIUS.
Proof.
  intros Hy.
  assert (H : length (Orbit.animateOrbit Orbit.Mercury now p) = 52).
  { unfold Orbit.animateOrbit. rewrite Hy.
    apply (OrbitFacts.orbit_on_circle (Orbit.orbitAngle Orbit.Mercury now));
      [lra | |];
      unfold Orbit.orbitX, Orbit.orbitZ, Orbit.AU_SCALE, Orbit.MERCURY_AU;
      cbv zeta; lra. }
  split; [exact H |]. rewrite H. unfold EruptionInit.SUN_RADIUS. lra.
Qed.

Lemma mercury_inside_sun_witness :
  length (Orbit.animateOrbit Orbit.Mercury 0 (Orbit.initialPosition Orbit.Mercury))
  = 52.
Proof.
  apply (mercury_inside_sun 0 (Orbit.initialPosition Orbit.Mercury)).
  reflexivity.
Defined.

End SceneSpec.

(** ** The eruption pool over time *)

Module EruptionShell.
Import Eruption EruptionInit.

Lemma radialVelocity_unit (u v : R) :
  length (radialVelocity (spherePoint u v)) = 1.
Proof.
  pose proof (EruptionSpec.spherePoint_norm u v) as H. cbv zeta in H.
  unfold length, radialVelocity; cbn [vx vy vz].
  set (q := spherePoint u v) in *.
  replace (vx q * 0.01 * (vx q * 0.01) + vy q * 0.01 * (vy q * 0.01)
           + vz q * 0.01 * (vz q * 0.01))
    with ((vx q * vx q + vy q * vy q + vz q * vz q) * (0.01 * 0.01)) by ring.
  rewrite H. unfold radius.
  replace (100 * 100 * (0.01 * 0.01)) with (1 * 1) by lra.
  apply sqrt_square. lra.
Qed.

Lemma spawned_onRay (u v : R) (size' current' max' : R) :
  0 <= current' <= max' -> 1 <= max' <= 4 ->
  onRay (mkParticle (spherePoint u v) (radialVelocity (spherePoint u v))
           size' current' max').
Proof.
  intros Hc Hm. exists 0. cbn [position velocity current max].
  repeat split; try lra.
  - unfold radialVelocity; cbn [vx vy vz].
    destruct (spherePoint u v) as [x y z]; cbn [vx vy vz].
    apply OrbitFacts.vector3_eq; lra.
  - apply radialVelocity_unit.
Qed.

Lemma updateParticle_onRay (random : nat -> R) (delta : R) (p : Particle)
    (cursor : nat) :
  (forall k, 0 <= random k < 1) -> 0 <= delta ->
  onRay p -> onRay (fst (updateParticle random delta p cursor)).
Proof.
  intros Hr Hd (d & Hdr & Hpos & Hv & Hc & Hm).
  unfold updateParticle.
  destruct (Rleb (current p - delta) 0) eqn:E; cbn [fst].
  - pose proof (Hr (cursor + 2)%nat). unfold respawn.
    apply spawned_onRay; lra.
  - apply Rleb_false in E. exists (d + delta).
    unfold advance; cbn [position velocity current max].
    repeat split; try lra.
    rewrite Hpos; cbn [vx vy vz]. apply OrbitFacts.vector3_eq; ring.
Qed.

Lemma onRay_distance (p : Particle) :
  onRay p -> 100 <= length (position p) <= 160.
Proof.
  intros (d & Hdr & Hpos & Hv & Hc & Hm).
  rewrite Hpos, FrameSpec.length_scaled, Hv, Rmult_1_r.
  rewrite Rabs_right by lra. lra.
Qed.

(** X25.  The eruption slots stay in a shell around the sun.  For draws
    in [0, 1) every slot is built on its ray (at 100 from the centre, with
    a velocity of length 1 pointing away from it), [update(delta)] with
    delta >= 0 keeps every slot on its ray, and a slot on its ray is
    between 100 and 160 from the centre: it moves out at 15 a second for
    the less than 4 seconds it lives. *)
Theorem eruption_stays_in_shell (random : nat -> R) (delta : R)
    (ps : list Particle) (n c0 cursor : nat) :
  (forall k, 0 <= random k < 1) ->
  0 <= delta ->
  Forall onRay (initParticles random n c0)
  /\ (Forall onRay ps -> Forall onRay (fst (update random delta ps cursor)))
  /\ (forall p, onRay p -> 100 <= length (position p) <= 160).
Proof.
  intros Hr Hd. split; [| split; [| exact onRay_distance]].
  - revert c0; induction n as [| n IH]; intros c0; simpl; constructor; auto.
    pose proof (Hr (c0 + 5)%nat). pose proof (Hr (c0 + 6)%nat).
    unfold initParticle. apply spawned_onRay; [| lra].
    split; [apply Rmult_le_pos; lra | nra].
  - intros HF; revert cursor; induction HF as [| p ps Hp _ IH]; intros cursor.
    + constructor.
    + rewrite EruptionSpec.update_cons. constructor; [| apply IH].
      now apply updateParticle_onRay.
Qed.

Lemma eruption_stays_in_shell_witness :
  Forall onRay (initParticles Sample.halves 3 0).
Proof.
  apply (eruption_stays_in_shell Sample.halves 0.5 [] 3 0 0
           EruptionSpec.halves_range).
  lra.
Defined.

(** X26.  [update] never leaves a slot expired, and keeps the number of
    slots: for draws in [0, 1), after [update(delta)], whatever delta and
    the pool were, every slot has a remaining life above 0; and a slot
    that had 0 <= life <= maximal life with delta >= 0 comes out with
    life at most its maximal life and a size from 0 to 5. *)
Theorem eruption_life_and_size (random : nat -> R) (delta : R)
    (ps : list Particle) (cursor : nat) :
  (forall k, 0 <= random k < 1) ->
  List.length (fst (update random delta ps cursor)) = List.length ps
  /\ Forall2
       (fun p p' =>
          0 < current p'
          /\ (0 <= delta -> 0 <= current p <= max p ->
              current p' <= max p' /\ 0 <= size p' < 5))
       ps (fst (update random delta ps cursor)).
Proof.
  intros Hr.
  assert (HF : Forall2
       (fun p p' =>
          0 < current p'
          /\ (0 <= delta -> 0 <= current p <= max p ->
              current p' <= max p' /\ 0 <= size p' < 5))
       ps (fst (update random delta ps cursor))).
  { revert cursor; induction ps as [| p ps IH]; intros cursor; [constructor |].
    rewrite EruptionSpec.update_cons. constructor; [| apply IH].
    unfold updateParticle.
    destruct (Rleb (current p - delta) 0) eqn:E; cbn [fst].
    - pose proof (Hr (cursor + 2)%nat). pose proof (Hr (cursor + 3)%nat).
      unfold respawn; cbn [current max size]. repeat split; lra.
    - apply Rleb_false in E. pose proof (Hr cursor) as Hw.
      unfold advance; cbn [current max size].
      split; [exact E |]. intros Hd Hc.
      assert (Hm : 0 < max p) by lra.
      assert (Hq : 0 < (current p - delta) / max p <= 1).
      { split; [apply Rdiv_lt_0_compat; lra |].
        apply (Rmult_le_reg_r (max p)); [exact Hm |].
        unfold Rdiv. rewrite Rmult_assoc, Rinv_l by lra. lra. }
      split; [lra |]. split; [apply Rmult_le_pos; lra | nra]. }
  split; [| exact HF].
  symmetry. eapply ExhaustPool.Forall2_length_eq; exact HF.
Qed.

Lemma eruption_life_and_size_witness :
  List.length (fst (update Sample.halves 0.5 [Sample.eruptionSlot] 0))
  = List.length [Sample.eruptionSlot].
Proof.
  apply (eruption_life_and_size Sample.halves 0.5 [Sample.eruptionSlot] 0
           EruptionSpec.halves_range).
Defined.

End EruptionShell.

(** ** Star field and ring geometry *)

Module GeometrySpec.
Import Starfield.

Lemma stars_length (random : nat -> R) (n cursor : nat) :
  List.length (stars random n cursor) = n.
Proof. revert cursor; induction n; intros; simpl; auto. Qed.

(** X27.  [getStarfield] never builds more than 5000 stars: it builds
    min(numStars, 5000) of them, 500 when [numStars] is missing or 0, none
    when it is negative, and 5000 for the 10000 [index.js] asks for; the
    position array has three numbers a star. *)
Theorem starfield_size (random : nat -> R) (o : option Z) (cursor : nat) :
  let l := getStarfield random o cursor in
  (List.length l <= 5000)%nat
  /\ List.length l = Z.to_nat (numStars o)
  /\ List.length (verts l) = (3 * List.length l)%nat
  /\ numStars None = 500%Z
  /\ numStars (Some 0%Z) = 500%Z
  /\ numStars (Some 10000%Z) = 5000%Z
  /\ (forall z : Z, (z <> 0)%Z -> numStars (Some z) = Z.min z 5000)
  /\ (forall z : Z, (z < 0)%Z -> getStarfield random (Some z) cursor = []).
Proof.
  cbv zeta. unfold getStarfield. rewrite stars_length.
  assert (Hcap : (numStars o <= 5000)%Z) by (unfold numStars; apply Z.le_min_r).
  repeat split; try reflexivity.
  - lia.
  - unfold verts. generalize (Z.to_nat (numStars o)) as n.
    intros n; revert cursor; induction n as [| n IH]; intros cursor; simpl.
    + reflexivity.
    + rewrite IH. lia.
  - intros z Hz. unfold numStars.
    now replace (z =? 0)%Z with false by (symmetry; apply Z.eqb_neq; exact Hz).
  - intros z Hz. unfold numStars.
    replace (z =? 0)%Z with false by (symmetry; apply Z.eqb_neq; lia).
    rewrite Z.min_l by lia.
    now replace (Z.to_nat z) with 0%nat by lia.
Qed.

Lemma sphere_length (r u v : R) :
  0 <= r ->
  length (mkVector3 (r * sin (acos (2 * v - 1)) * cos (2 * PI * u))
            (r * sin (acos (2 * v - 1)) * sin (2 * PI * u))
            (r * cos (acos (2 * v - 1))))
  = r.
Proof.
  intros Hr. unfold length; cbn [vx vy vz].
  set (theta := 2 * PI * u). set (phi := acos (2 * v - 1)).
  pose proof (sin2_cos2 theta) as Ht. pose proof (sin2_cos2 phi) as Hp.
  unfold Rsqr in Ht, Hp.
  replace (r * sin phi * cos theta * (r * sin phi * cos theta)
           + r * sin phi * sin theta * (r * sin phi * sin theta)
           + r * cos phi * (r * cos phi))
    with (r * r
          * (sin phi * sin phi * (sin theta * sin theta + cos theta * cos theta)
             + cos phi * cos phi)) by ring.
  rewrite Ht, Rmult_1_r, Hp, Rmult_1_r.
  now apply sqrt_square.
Qed.

Lemma pickHue_range (colorType h : R) :
  0 <= h < 1 -> 0 <= pickHue colorType h < 0.7.
Proof.
  intros Hh. unfold pickHue, Rltb.
  destruct (Rlt_dec colorType 0.7); [lra |].
  destruct (Rlt_dec colorType 0.85); lra.
Qed.

(** X28.  For draws in [0, 1) every star lies in the shell between 3000
    and 6000 from the centre, [minDist] is its distance from the centre,
    its hue is in [0, 0.7), its saturation in [0.3, 0.8) and its
    lightness in [0.6, 1). *)
Theorem stars_in_shell (random : nat -> R) (o : option Z) (cursor : nat) :
  (forall k, 0 <= random k < 1) ->
  Forall
    (fun s =>
       length (pos s) = minDist s
       /\ 3000 <= length (pos s) < 6000
       /\ 0 <= hue s < 0.7
       /\ 0.3 <= saturation s < 0.8
       /\ 0.6 <= lightness s < 1)
    (getStarfield random o cursor).
Proof.
  intros Hr. unfold getStarfield.
  generalize (Z.to_nat (numStars o)) as n.
  intros n; revert cursor; induction n as [| n IH]; intros cursor; simpl;
    constructor; [| apply IH].
  pose proof (Hr cursor). pose proof (Hr (cursor + 4)%nat).
  pose proof (Hr (cursor + 5)%nat). pose proof (Hr (cursor + 6)%nat).
  unfold star; cbn [pos minDist hue saturation lightness].
  rewrite sphere_length by lra.
  repeat split; try lra; apply pickHue_range; lra.
Qed.

Lemma stars_in_shell_witness :
  Forall (fun s => length (pos s) = minDist s)
    (getStarfield Sample.halves (Some 2%Z) 0).
Proof.
  eapply Forall_impl;
    [| exact (stars_in_shell Sample.halves (Some 2%Z) 0 EruptionSpec.halves_range)].
  intros s H. exact (proj1 H).
Defined.

Import Ring.

(** Reading a flat array built from blocks of [m] numbers. *)
Lemma nth_blocks {A : Type} (f : nat -> list A) (m : nat) (d : A) :
  (forall i, List.length (f i) = m) ->
  forall n start i j,
    (i < n)%nat -> (j < m)%nat ->
    nth (m * i + j) (flat_map f (seq start n)) d = nth j (f (start + i)%nat) d.
Proof.
  intros Hm; induction n as [| n IH]; intros start i j Hi Hj; [lia |].
  cbn [seq flat_map].
  destruct i as [| i].
  - rewrite Nat.mul_0_r, Nat.add_0_l, Nat.add_0_r.
    apply app_nth1. rewrite Hm. exact Hj.
  - rewrite app_nth2 by (rewrite Hm; lia).
    rewrite Hm.
    replace (m * S i + j - m)%nat with (m * i + j)%nat by lia.
    rewrite IH by lia. f_equal. f_equal. lia.
Qed.

Lemma flat_map_length_blocks {A : Type} (f : nat -> list A) (m : nat) :
  (forall i, List.length (f i) = m) ->
  forall n start, List.length (flat_map f (seq start n)) = (m * n)%nat.
Proof.
  intros Hm; induction n as [| n IH]; intros start; cbn [seq flat_map].
  - simpl. lia.
  - rewrite length_app, Hm, IH. lia.
Qed.

(** X29.  [createRingGeometry] builds 2 * (segments + 1) vertices, as many
    uv pairs and 2 * segments triangles, and every index of a triangle
    names a vertex that exists. *)
Theorem ring_indices_in_range (innerRadius outerRadius : R) (segments : nat) :
  let g := createRingGeometry innerRadius outerRadius segments in
  List.length (vertices g) = (3 * (2 * (segments + 1)))%nat
  /\ vertexCount (vertices g) = (2 * (segments + 1))%nat
  /\ List.length (uvs g) = (2 * (2 * (segments + 1)))%nat
  /\ List.length (indices g) = (3 * (2 * segments))%nat
  /\ Forall (fun k => (k < vertexCount (vertices g))%nat) (indices g).
Proof.
  cbv zeta. unfold createRingGeometry; cbn [vertices uvs indices].
  assert (Hv : List.length
                 (flat_map (vertexPair innerRadius outerRadius segments)
                    (seq 0 (S segments)))
               = (3 * (2 * (segments + 1)))%nat).
  { rewrite (flat_map_length_blocks _ 6) by reflexivity. lia. }
  assert (Hc : vertexCount
                 (flat_map (vertexPair innerRadius outerRadius segments)
                    (seq 0 (S segments)))
               = (2 * (segments + 1))%nat).
  { unfold vertexCount. rewrite Hv.
    rewrite Nat.mul_comm. apply Nat.div_mul. lia. }
  split; [exact Hv | split; [exact Hc | split; [| split]]].
  - rewrite (flat_map_length_blocks _ 4) by reflexivity. lia.
  - rewrite (flat_map_length_blocks _ 6) by reflexivity. lia.
  - rewrite Hc. apply Forall_forall. intros k Hk.
    apply in_flat_map in Hk. destruct Hk as (i & Hi & Hk).
    apply in_seq in Hi. unfold faceIndices in Hk. simpl in Hk.
    intuition lia.
Qed.

Lemma ring_vertex (innerRadius outerRadius : R) (segments i : nat) :
  (i <= segments)%nat ->
  let vs := vertices (createRingGeometry innerRadius outerRadius segments) in
  let theta := (INR i / INR segments) * PI * 2 in
  vertexAt vs (2 * i)
  = mkVector3 (innerRadius * cos theta) 0 (innerRadius * sin theta)
  /\ vertexAt vs (2 * i + 1)
     = mkVector3 (outerRadius * cos theta) 0 (outerRadius * sin theta).
Proof.
  intros Hi. cbv zeta. unfold createRingGeometry, vertexAt; cbn [vertices].
  pose proof (nth_blocks (vertexPair innerRadius outerRadius segments) 6 0
                (fun _ => eq_refl) (S segments) 0 i) as Hn.
  split.
  - replace (3 * (2 * i))%nat with (6 * i + 0)%nat by lia.
    replace (6 * i + 0 + 1)%nat with (6 * i + 1)%nat by lia.
    replace (6 * i + 0 + 2)%nat with (6 * i + 2)%nat by lia.
    rewrite (Hn 0%nat), (Hn 1%nat), (Hn 2%nat) by lia. reflexivity.
  - replace (3 * (2 * i + 1))%nat with (6 * i + 3)%nat by lia.
    replace (6 * i + 3 + 1)%nat with (6 * i + 4)%nat by lia.
    replace (6 * i + 3 + 2)%nat with (6 * i + 5)%nat by lia.
    rewrite (Hn 3%nat), (Hn 4%nat), (Hn 5%nat) by lia. reflexivity.
Qed.

Lemma circle_length (radius theta : R) :
  0 <= radius ->
  length (mkVector3 (radius * cos theta) 0 (radius * sin theta)) = radius.
Proof.
  intros Hr.
  apply (OrbitFacts.orbit_on_circle theta); [exact Hr | ring | ring].
Qed.

(** X30.  The vertices of the ring lie in the plane y = 0, the even ones
    on the circle of the inner radius and the odd ones on the circle of the
    outer radius (for radii that are not negative); and for at least one
    segment the ring is closed: the last pair of vertices is the first
    pair again. *)
Theorem ring_vertices_on_circles (innerRadius outerRadius : R)
    (segments i : nat) :
  0 <= innerRadius -> 0 <= outerRadius ->
  (0 < segments)%nat -> (i <= segments)%nat ->
  let vs := vertices (createRingGeometry innerRadius outerRadius segments) in
  vy (vertexAt vs (2 * i)) = 0
  /\ vy (vertexAt vs (2 * i + 1)) = 0
  /\ length (vertexAt vs (2 * i)) = innerRadius
  /\ length (vertexAt vs (2 * i + 1)) = outerRadius
  /\ vertexAt vs (2 * segments) = vertexAt vs 0
  /\ vertexAt vs (2 * segments + 1) = vertexAt vs 1.
Proof.
  intros Hin Hout Hseg Hi. cbv zeta.
  destruct (ring_vertex innerRadius outerRadius segments i Hi) as [He Ho].
  destruct (ring_vertex innerRadius outerRadius segments segments (le_n _))
    as [Hle Hlo].
  destruct (ring_vertex innerRadius outerRadius segments 0 (Nat.le_0_l _))
    as [Hfe Hfo].
  cbv zeta in *.
  assert (Hlast : INR segments / INR segments * PI * 2 = 0 + 2 * PI).
  { assert (0 < INR segments) by (apply lt_0_INR; exact Hseg). field. lra. }
  assert (Hfirst : INR 0 / INR segments * PI * 2 = 0).
  { simpl. unfold Rdiv. ring. }
  rewrite He, Ho. cbn [vy].
  rewrite !circle_length by assumption.
  repeat split.
  - rewrite Hle. change (vertexAt _ 0) with
      (vertexAt (vertices (createRingGeometry innerRadius outerRadius segments))
         (2 * 0)).
    rewrite Hfe, Hlast, Hfirst, SceneSpec.cos_turn, SceneSpec.sin_turn.
    reflexivity.
  - rewrite Hlo. change (vertexAt _ 1) with
      (vertexAt (vertices (createRingGeometry innerRadius outerRadius segments))
         (2 * 0 + 1)).
    rewrite Hfo, Hlast, Hfirst, SceneSpec.cos_turn, SceneSpec.sin_turn.
    reflexivity.
Qed.

Lemma ring_vertices_on_circles_witness :
  length
    (vertexAt (vertices (createRingGeometry 1 2 4)) (2 * 1)) = 1.
Proof.
  apply (ring_vertices_on_circles 1 2 4 1); try lra; lia.
Defined.

End GeometrySpec.

(** ** The camera and the world matrix of the ship *)

Module CameraSpec.
Import Flight WorldMatrix.







End CameraSpec.
